(** * snakey: the snake simulation and the game state machine of src/main.cpp

    A shallow embedding of the classes [Snake], [Food] and [Game] and the
    properties of the per-frame update.

    Conventions.
    - A C++ [int] is a [Z].  Signed overflow and [front()] on an empty vector
      are undefined behaviour: the operations that can reach them return
      [option], with [None] standing for undefined behaviour.  A conversion to
      [int] ([static_cast<int>], [int(...)]) is modular (C++20) and written
      out as [to_int].
    - A [steady_clock::time_point] is a [Z] counting clock periods.
    - Everything the program reads from raylib, the clock and the random
      engine during one frame is gathered in a record [Frame]. *)

From Stdlib Require Import ZArith List Bool Lia.
From Stdlib Require String DecimalString DecimalZ.
Import ListNotations.
Local Open Scope Z_scope.

(** ** Machine integers *)

Definition INT_MIN : Z := -2147483648.
Definition INT_MAX : Z := 2147483647.

Definition in_int (z : Z) : bool := (INT_MIN <=? z) && (z <=? INT_MAX).

(** Result of a signed [int] computation: undefined when out of range. *)
Definition checked (z : Z) : option Z := if in_int z then Some z else None.

(** Conversion of an integer value to [int]: reduction modulo [2^32]. *)
Definition to_int (z : Z) : Z := (z + 2147483648) mod 4294967296 - 2147483648.

(** A tiny undefined-behaviour monad. *)
Definition bind {A B : Type} (m : option A) (k : A -> option B) : option B :=
  match m with
  | Some a => k a
  | None => None
  end.

Notation "x <- m ;; k" := (bind m (fun x => k))
  (at level 61, m at next level, right associativity).

(** ** Constants *)

Definition BLOCK_SIZE : Z := 20.
Definition GRID_WIDTH : Z := 40.
Definition GRID_HEIGHT : Z := 30.
Definition SCREEN_WIDTH : Z := GRID_WIDTH * BLOCK_SIZE.
Definition SCREEN_HEIGHT : Z := GRID_HEIGHT * BLOCK_SIZE.
Definition BUTTON_WIDTH : Z := 200.
Definition BUTTON_HEIGHT : Z := 50.

Inductive GameState : Type :=
| StartMenu
| Settings
| Keybinds
| Countdown
| Playing
| Pause
| ConfirmRestart
| ConfirmMainMenu
| GameOver.

Record Point : Type := mkPoint { x : Z; y : Z }.

Inductive Direction : Type :=
| Up
| Down
| Left
| Right.

Definition GameState_eq_dec (a b : GameState) : {a = b} + {a <> b}.
Proof. decide equality. Defined.

Definition Direction_eq_dec (a b : Direction) : {a = b} + {a <> b}.
Proof. decide equality. Defined.

(** [==] on the enumeration. *)
Definition Direction_eqb (a b : Direction) : bool :=
  if Direction_eq_dec a b then true else false.

Definition Point_eq_dec (p q : Point) : {p = q} + {p <> q}.
Proof. decide equality; apply Z.eq_dec. Defined.

(** The cell test written twice in the source,
    [a.x == b.x && a.y == b.y]. *)
Definition same_cell (a b : Point) : bool := (x a =? x b) && (y a =? y b).

Definition in_grid (p : Point) : bool :=
  negb ((x p <? 0) || (x p >=? GRID_WIDTH) || (y p <? 0) || (y p >=? GRID_HEIGHT)).

(** ** The snake *)

Module Snake.

Record t : Type := mk {
  segments : list Point;
  current_direction : Direction;
  grow_snake : bool
}.

(** The loop of [Snake(int init_length)]: [n] iterations left, counter [i]. *)
Fixpoint init_loop (n : nat) (i : Z) : list Point :=
  match n with
  | O => []
  | S n' =>
      mkPoint (Z.quot GRID_WIDTH 2 - i) (Z.quot GRID_HEIGHT 2) :: init_loop n' (i + 1)
  end.

(** [Snake(int init_length)]. *)
Definition make (init_length : Z) : t :=
  mk (init_loop (Z.to_nat init_length) 0) Right false.

(** [Snake()]. *)
Definition make_default : t :=
  mk [mkPoint (Z.quot GRID_WIDTH 2) (Z.quot GRID_HEIGHT 2)] Right false.

Definition get_head (s : t) : option Point :=
  match segments s with
  | [] => None
  | h :: _ => Some h
  end.

(** The [switch] of [update]: one decrement or increment of one field. *)
Definition step (d : Direction) (h : Point) : option Point :=
  match d with
  | Up => y' <- checked (y h - 1) ;; Some (mkPoint (x h) y')
  | Down => y' <- checked (y h + 1) ;; Some (mkPoint (x h) y')
  | Left => x' <- checked (x h - 1) ;; Some (mkPoint x' (y h))
  | Right => x' <- checked (x h + 1) ;; Some (mkPoint x' (y h))
  end.

Definition update (s : t) : option t :=
  new_head <- bind (get_head s) (step (current_direction s)) ;;
  let inserted := new_head :: segments s in
  if negb (grow_snake s)
  then Some (mk (removelast inserted) (current_direction s) (grow_snake s))
  else Some (mk inserted (current_direction s) false).

Definition set_head (new_head : Point) (s : t) : option t :=
  match segments s with
  | [] => None
  | _ :: rest => Some (mk (new_head :: rest) (current_direction s) (grow_snake s))
  end.

Definition set_direction (new_direction : Direction) (s : t) : t :=
  if (Direction_eqb (current_direction s) Up && Direction_eqb new_direction Down)
     || (Direction_eqb (current_direction s) Down && Direction_eqb new_direction Up)
     || (Direction_eqb (current_direction s) Left && Direction_eqb new_direction Right)
     || (Direction_eqb (current_direction s) Right && Direction_eqb new_direction Left)
  then s
  else mk (segments s) new_direction (grow_snake s).

Definition grow (s : t) : t := mk (segments s) (current_direction s) true.

(** The loop of [has_self_collision] over the indices [1 .. size-1]. *)
Fixpoint collision_loop (head : Point) (rest : list Point) : bool :=
  match rest with
  | [] => false
  | p :: rest' => if same_cell p head then true else collision_loop head rest'
  end.

Definition has_self_collision (s : t) : option bool :=
  match segments s with
  | [] => None
  | head :: rest => Some (collision_loop head rest)
  end.

Definition get_length (s : t) : Z := to_int (Z.of_nat (length (segments s))).

End Snake.

(** ** What one frame reads from outside the program

    The raylib calls keep their names.  Within one call of [Game::update]
    raylib's input state does not change, so each query is a function of the
    frame.  [mouse_in_rect r] is
    [CheckCollisionPointRec(GetMousePosition(), r)].  The two sliders compute
    [static_cast<int>(((mouse.x - r.x) / r.width) * k)] in floating point:
    [slider_units r k] is that integer.  [now] and [now_again] are the first
    and the second reading of [steady_clock::now()] in the frame, and
    [dist_x], [dist_y] the next two draws of the two uniform distributions of
    [Food::respawn]. *)

Record Rectangle : Type := mkRect {
  rect_x : Z;
  rect_y : Z;
  rect_width : Z;
  rect_height : Z
}.

Record Frame : Type := mkFrame {
  IsKeyDown : Z -> bool;
  IsKeyPressed : Z -> bool;
  GetKeyPressed : Z;
  IsMouseButtonPressed : bool;
  IsMouseButtonDown : bool;
  mouse_in_rect : Rectangle -> bool;
  slider_units : Rectangle -> Z -> Z;
  now : Z;
  now_again : Z;
  dist_x : Z;
  dist_y : Z
}.

(** Key codes of raylib.h. *)
Definition KEY_ESCAPE : Z := 256.
Definition KEY_RIGHT : Z := 262.
Definition KEY_LEFT : Z := 263.
Definition KEY_DOWN : Z := 264.
Definition KEY_UP : Z := 265.
Definition KEY_A : Z := 65.
Definition KEY_D : Z := 68.
Definition KEY_S : Z := 83.
Definition KEY_W : Z := 87.

Module KeyBindings.

Record t : Type := mk {
  pause : list Z;
  resume : list Z;
  up : list Z;
  down : list Z;
  left : list Z;
  right : list Z
}.

Definition make : t :=
  mk [KEY_ESCAPE] [KEY_ESCAPE] [KEY_UP; KEY_W] [KEY_DOWN; KEY_S]
     [KEY_LEFT; KEY_A] [KEY_RIGHT; KEY_D].

End KeyBindings.

(** ** The food *)

Module Food.

Record t : Type := mk { position : Point }.

Definition get_position (fd : t) : Point := position fd.

(** [respawn] overwrites both coordinates with fresh draws. *)
Definition respawn (f : Frame) (fd : t) : t := mk (mkPoint (dist_x f) (dist_y f)).

(** [Food()]. *)
Definition make (f : Frame) : t := mk (mkPoint (dist_x f) (dist_y f)).

End Food.

(** [std::clamp(v, lo, hi)]. *)
Definition clamp (v lo hi : Z) : Z :=
  if v <? lo then lo else if hi <? v then hi else v.

(** ** The game *)

Module Game.

(** The data members of [Game] that [update] reads or writes
    ([pause_texture] is touched by the destructor only). *)
Record t : Type := mk {
  app_state : GameState;
  previous_state : GameState;
  initial_snake_length : Z;
  tick_rate_ms : Z;
  wrapping_enabled : bool;
  best_length : Z;
  countdown_duration_ms : Z;
  countdown_start_time : Z;
  snake : Snake.t;
  food : Food.t;
  last_move_time : Z;
  key_bindings : KeyBindings.t;
  current_edit_action : Z
}.

(** Assignments to one member. *)
Definition set_app_state (v : GameState) (g : t) : t :=
  mk v (previous_state g) (initial_snake_length g) (tick_rate_ms g)
     (wrapping_enabled g) (best_length g) (countdown_duration_ms g)
     (countdown_start_time g) (snake g) (food g) (last_move_time g)
     (key_bindings g) (current_edit_action g).

Definition set_previous_state (v : GameState) (g : t) : t :=
  mk (app_state g) v (initial_snake_length g) (tick_rate_ms g)
     (wrapping_enabled g) (best_length g) (countdown_duration_ms g)
     (countdown_start_time g) (snake g) (food g) (last_move_time g)
     (key_bindings g) (current_edit_action g).

Definition set_initial_snake_length (v : Z) (g : t) : t :=
  mk (app_state g) (previous_state g) v (tick_rate_ms g)
     (wrapping_enabled g) (best_length g) (countdown_duration_ms g)
     (countdown_start_time g) (snake g) (food g) (last_move_time g)
     (key_bindings g) (current_edit_action g).

Definition set_tick_rate_ms (v : Z) (g : t) : t :=
  mk (app_state g) (previous_state g) (initial_snake_length g) v
     (wrapping_enabled g) (best_length g) (countdown_duration_ms g)
     (countdown_start_time g) (snake g) (food g) (last_move_time g)
     (key_bindings g) (current_edit_action g).

Definition set_wrapping_enabled (v : bool) (g : t) : t :=
  mk (app_state g) (previous_state g) (initial_snake_length g) (tick_rate_ms g)
     v (best_length g) (countdown_duration_ms g)
     (countdown_start_time g) (snake g) (food g) (last_move_time g)
     (key_bindings g) (current_edit_action g).

Definition set_best_length (v : Z) (g : t) : t :=
  mk (app_state g) (previous_state g) (initial_snake_length g) (tick_rate_ms g)
     (wrapping_enabled g) v (countdown_duration_ms g)
     (countdown_start_time g) (snake g) (food g) (last_move_time g)
     (key_bindings g) (current_edit_action g).

Definition set_countdown_start_time (v : Z) (g : t) : t :=
  mk (app_state g) (previous_state g) (initial_snake_length g) (tick_rate_ms g)
     (wrapping_enabled g) (best_length g) (countdown_duration_ms g)
     v (snake g) (food g) (last_move_time g)
     (key_bindings g) (current_edit_action g).

Definition set_snake (v : Snake.t) (g : t) : t :=
  mk (app_state g) (previous_state g) (initial_snake_length g) (tick_rate_ms g)
     (wrapping_enabled g) (best_length g) (countdown_duration_ms g)
     (countdown_start_time g) v (food g) (last_move_time g)
     (key_bindings g) (current_edit_action g).

Definition set_food (v : Food.t) (g : t) : t :=
  mk (app_state g) (previous_state g) (initial_snake_length g) (tick_rate_ms g)
     (wrapping_enabled g) (best_length g) (countdown_duration_ms g)
     (countdown_start_time g) (snake g) v (last_move_time g)
     (key_bindings g) (current_edit_action g).

Definition set_last_move_time (v : Z) (g : t) : t :=
  mk (app_state g) (previous_state g) (initial_snake_length g) (tick_rate_ms g)
     (wrapping_enabled g) (best_length g) (countdown_duration_ms g)
     (countdown_start_time g) (snake g) (food g) v
     (key_bindings g) (current_edit_action g).

Definition set_key_bindings (v : KeyBindings.t) (g : t) : t :=
  mk (app_state g) (previous_state g) (initial_snake_length g) (tick_rate_ms g)
     (wrapping_enabled g) (best_length g) (countdown_duration_ms g)
     (countdown_start_time g) (snake g) (food g) (last_move_time g)
     v (current_edit_action g).

Definition set_current_edit_action (v : Z) (g : t) : t :=
  mk (app_state g) (previous_state g) (initial_snake_length g) (tick_rate_ms g)
     (wrapping_enabled g) (best_length g) (countdown_duration_ms g)
     (countdown_start_time g) (snake g) (food g) (last_move_time g)
     (key_bindings g) v.

(** [Game()]: the members in declaration order; [snake] is built from the
    [initial_snake_length] initialised before it, [food] draws its first
    position, and [last_move_time] is the clock's epoch. *)
Definition make (f : Frame) : t :=
  mk StartMenu StartMenu 3 100 true 0 3000 (now f) (Snake.make 3) (Food.make f) 0
     KeyBindings.make (-1).

Definition is_action_down (f : Frame) (keys : list Z) : bool :=
  existsb (IsKeyDown f) keys.

Definition is_action_pressed (f : Frame) (keys : list Z) : bool :=
  existsb (IsKeyPressed f) keys.

Definition is_mouse_in_rect (f : Frame) (r : Rectangle) : bool := mouse_in_rect f r.

(** *** Widget rectangles, with the integer arithmetic of the source *)

Definition start_menu_button (k : Z) : Rectangle :=
  let button_count := 3 in
  let spacing := 20 in
  let total_height := button_count * BUTTON_HEIGHT + (button_count - 1) * spacing in
  let start_y := Z.quot (SCREEN_HEIGHT - total_height) 2 in
  let start_x := Z.quot SCREEN_WIDTH 2 - Z.quot BUTTON_WIDTH 2 in
  mkRect start_x (start_y + k * (BUTTON_HEIGHT + spacing)) BUTTON_WIDTH BUTTON_HEIGHT.

Definition pause_button (k : Z) : Rectangle :=
  let button_count := 4 in
  let spacing := 20 in
  let total_button_height :=
    button_count * BUTTON_HEIGHT + (button_count - 1) * spacing in
  let start_x := Z.quot SCREEN_WIDTH 2 - Z.quot BUTTON_WIDTH 2 in
  let title_bottom_y := 80 + 60 in
  let available_height := SCREEN_HEIGHT - title_bottom_y - 20 in
  let start_y :=
    title_bottom_y + Z.quot (available_height - total_button_height) 2 + 20 in
  mkRect start_x (start_y + k * (BUTTON_HEIGHT + spacing)) BUTTON_WIDTH BUTTON_HEIGHT.

Definition snake_length_slider : Rectangle := mkRect 100 150 200 10.
Definition tick_rate_slider : Rectangle := mkRect 100 250 200 10.
Definition wrapping_checkbox : Rectangle := mkRect 100 350 20 20.
Definition keybinds_button : Rectangle := mkRect 100 410 200 40.
Definition back_button : Rectangle :=
  mkRect (SCREEN_WIDTH - 120) (SCREEN_HEIGHT - 60) 100 40.
Definition entry_rect (i : Z) : Rectangle := mkRect 100 (100 + i * 50) 400 40.
Definition yes_button : Rectangle :=
  mkRect (Z.quot SCREEN_WIDTH 2 - BUTTON_WIDTH - 10) (Z.quot SCREEN_HEIGHT 2 + 40)
         BUTTON_WIDTH BUTTON_HEIGHT.
Definition no_button : Rectangle :=
  mkRect (Z.quot SCREEN_WIDTH 2 + 10) (Z.quot SCREEN_HEIGHT 2 + 40)
         BUTTON_WIDTH BUTTON_HEIGHT.

(** *** The per-state update functions *)

Section Updates.

(** Periods of [steady_clock] in one millisecond (a million where the
    clock counts nanoseconds). *)
Variable ticks_per_ms : Z.

(** [std::chrono::milliseconds(n)] converted to the clock's duration. *)
Definition milliseconds (n : Z) : Z := n * ticks_per_ms.

(** [int(duration_cast<milliseconds>(d).count())]. *)
Definition to_ms (d : Z) : Z := to_int (Z.quot d ticks_per_ms).

Definition game_over (g : t) : t :=
  let current_length := Snake.get_length (snake g) in
  set_app_state GameOver
    (set_best_length (Z.max (best_length g) current_length) g).

Definition update_start_menu (f : Frame) (g : t) : t :=
  if IsMouseButtonPressed f then
    if is_mouse_in_rect f (start_menu_button 0) then
      set_app_state Countdown (set_countdown_start_time (now f) g)
    else if is_mouse_in_rect f (start_menu_button 1) then
      set_app_state Settings (set_previous_state StartMenu g)
    else if is_mouse_in_rect f (start_menu_button 2) then
      g (* CloseWindow() *)
    else g
  else g.

Definition update_settings (f : Frame) (g : t) : t :=
  let g1 :=
    if IsMouseButtonDown f then
      let ga :=
        if mouse_in_rect f snake_length_slider then
          let new_value := 1 + slider_units f snake_length_slider 9 in
          set_initial_snake_length (clamp new_value 1 10) g
        else g in
      if mouse_in_rect f tick_rate_slider then
        let new_rate := 50 + slider_units f tick_rate_slider 450 in
        set_tick_rate_ms (clamp new_rate 50 500) ga
      else ga
    else g in
  if IsMouseButtonPressed f then
    let ga :=
      if is_mouse_in_rect f wrapping_checkbox
      then set_wrapping_enabled (negb (wrapping_enabled g1)) g1
      else g1 in
    let gb :=
      if is_mouse_in_rect f keybinds_button then set_app_state Keybinds ga else ga in
    if is_mouse_in_rect f back_button
    then set_app_state (previous_state gb) gb
    else gb
  else g1.

(** The [switch] of [update_keybinds]. *)
Definition rebind (action new_key : Z) (kb : KeyBindings.t) : KeyBindings.t :=
  let '(KeyBindings.mk p r u d l rt) := kb in
  if action =? 0 then KeyBindings.mk [new_key] r u d l rt
  else if action =? 1 then KeyBindings.mk p [new_key] u d l rt
  else if action =? 2 then KeyBindings.mk p r [new_key] d l rt
  else if action =? 3 then KeyBindings.mk p r u [new_key] l rt
  else if action =? 4 then KeyBindings.mk p r u d [new_key] rt
  else if action =? 5 then KeyBindings.mk p r u d l [new_key]
  else kb.

Definition update_keybinds (f : Frame) (g : t) : t :=
  let g1 :=
    if IsMouseButtonPressed f then
      let ga :=
        match find (fun i => mouse_in_rect f (entry_rect i)) [0; 1; 2; 3; 4; 5] with
        | Some i => set_current_edit_action i g
        | None => g
        end in
      if is_mouse_in_rect f back_button then set_app_state Settings ga else ga
    else g in
  if negb (current_edit_action g1 =? -1) then
    let new_key := GetKeyPressed f in
    if negb (new_key =? 0) then
      set_current_edit_action (-1)
        (set_key_bindings (rebind (current_edit_action g1) new_key (key_bindings g1)) g1)
    else g1
  else g1.

Definition update_countdown (f : Frame) (g : t) : t :=
  let elapsed_ms := to_ms (now f - countdown_start_time g) in
  if elapsed_ms >=? countdown_duration_ms g then
    set_app_state Playing
      (set_last_move_time (now_again f)
         (set_food (Food.respawn f (food g))
            (set_snake (Snake.make (initial_snake_length g)) g)))
  else g.

(** Lines 356-359: the chain of [is_action_down] tests. *)
Definition sample_movement (f : Frame) (g : t) : t :=
  let kb := key_bindings g in
  if is_action_down f (KeyBindings.up kb)
  then set_snake (Snake.set_direction Up (snake g)) g
  else if is_action_down f (KeyBindings.down kb)
  then set_snake (Snake.set_direction Down (snake g)) g
  else if is_action_down f (KeyBindings.left kb)
  then set_snake (Snake.set_direction Left (snake g)) g
  else if is_action_down f (KeyBindings.right kb)
  then set_snake (Snake.set_direction Right (snake g)) g
  else g.

(** Lines 366-370: the local [head] and the flag [wrapped]. *)
Definition wrap_head (head : Point) : Point * bool :=
  let '(hx, wrapped) :=
    if x head <? 0 then (GRID_WIDTH - 1, true)
    else if x head >=? GRID_WIDTH then (0, true)
    else (x head, false) in
  if y head <? 0 then (mkPoint hx (GRID_HEIGHT - 1), true)
  else if y head >=? GRID_HEIGHT then (mkPoint hx 0, true)
  else (mkPoint hx (y head), wrapped).

(** Lines 375-378, with the local [head] left by the boundary step. *)
Definition after_boundary (f : Frame) (head : Point) (g : t) : option t :=
  collided <- Snake.has_self_collision (snake g) ;;
  if collided : bool then Some (game_over g)
  else if same_cell head (Food.get_position (food g))
  then Some (set_food (Food.respawn f (food g)) (set_snake (Snake.grow (snake g)) g))
  else Some g.

(** Lines 362-378: the body of the [if] on the elapsed time. *)
Definition simulation_tick (f : Frame) (g : t) : option t :=
  s1 <- Snake.update (snake g) ;;
  let g1 := set_last_move_time (now f) (set_snake s1 g) in
  head <- Snake.get_head s1 ;;
  if wrapping_enabled g1 then
    let '(head', wrapped) := wrap_head head in
    s2 <- (if wrapped : bool then Snake.set_head head' s1 else Some s1) ;;
    after_boundary f head' (set_snake s2 g1)
  else if (x head <? 0) || (x head >=? GRID_WIDTH)
          || (y head <? 0) || (y head >=? GRID_HEIGHT)
  then Some (game_over g1)
  else after_boundary f head g1.

(** The test of line 361. *)
Definition tick_due (f : Frame) (g : t) : bool :=
  now f - last_move_time g >=? milliseconds (tick_rate_ms g).

Definition update_playing (f : Frame) (g : t) : option t :=
  if is_action_pressed f (KeyBindings.pause (key_bindings g))
  then Some (set_app_state Pause g)
  else
    let g1 := sample_movement f g in
    if tick_due f g1 then simulation_tick f g1 else Some g1.

Definition update_pause (f : Frame) (g : t) : t :=
  let g1 :=
    if IsMouseButtonPressed f then
      if is_mouse_in_rect f (pause_button 0) then set_app_state Playing g
      else if is_mouse_in_rect f (pause_button 1)
      then set_app_state Settings (set_previous_state Pause g)
      else if is_mouse_in_rect f (pause_button 2) then set_app_state ConfirmRestart g
      else if is_mouse_in_rect f (pause_button 3) then set_app_state ConfirmMainMenu g
      else g
    else g in
  if is_action_pressed f (KeyBindings.resume (key_bindings g1))
  then set_app_state Playing g1
  else g1.

Definition update_confirm_restart (f : Frame) (g : t) : t :=
  if IsMouseButtonPressed f then
    if is_mouse_in_rect f yes_button then
      set_app_state Playing
        (set_last_move_time (now f)
           (set_food (Food.respawn f (food g))
              (set_snake (Snake.make (initial_snake_length g)) g)))
    else if is_mouse_in_rect f no_button then set_app_state Pause g
    else g
  else g.

Definition update_confirm_main_menu (f : Frame) (g : t) : t :=
  if IsMouseButtonPressed f then
    if is_mouse_in_rect f yes_button then set_app_state StartMenu g
    else if is_mouse_in_rect f no_button then set_app_state Pause g
    else g
  else g.

Definition update_game_over (f : Frame) (g : t) : t :=
  if IsMouseButtonPressed f then set_app_state StartMenu g else g.

Definition update (f : Frame) (g : t) : option t :=
  match app_state g with
  | StartMenu => Some (update_start_menu f g)
  | Settings => Some (update_settings f g)
  | Keybinds => Some (update_keybinds f g)
  | Countdown => Some (update_countdown f g)
  | Playing => update_playing f g
  | Pause => Some (update_pause f g)
  | ConfirmRestart => Some (update_confirm_restart f g)
  | ConfirmMainMenu => Some (update_confirm_main_menu f g)
  | GameOver => Some (update_game_over f g)
  end.

(** The loop of [run], one [Frame] for each call of [update]. *)
Fixpoint run (frames : list Frame) (g : t) : option t :=
  match frames with
  | [] => Some g
  | f :: rest => g' <- update f g ;; run rest g'
  end.

End Updates.

End Game.

(** ** What the drawing functions put on the screen

    The texts and numbers computed by [key_code_to_string] and by the
    [draw_...] members of [Game]; the calls that paint them are left out. *)

Module Draw.

Import String.
Local Open Scope string_scope.

(** [std::to_string(int)]: decimal digits, a minus sign for a negative. *)
Definition to_string (n : Z) : string :=
  DecimalString.NilZero.string_of_int (Z.to_int n).

Definition key_code_to_string (key : Z) : string :=
  if (key =? KEY_ESCAPE)%Z then "ESC"
  else if (key =? KEY_UP)%Z then "UP"
  else if (key =? KEY_DOWN)%Z then "DOWN"
  else if (key =? KEY_LEFT)%Z then "LEFT"
  else if (key =? KEY_RIGHT)%Z then "RIGHT"
  else if (key =? KEY_W)%Z then "W"
  else if (key =? KEY_A)%Z then "A"
  else if (key =? KEY_S)%Z then "S"
  else if (key =? KEY_D)%Z then "D"
  else "Key " ++ to_string key.

(** The [switch] of [draw_keybinds]: the first key of row [i]; [operator[]]
    on an empty vector is undefined. *)
Definition entry_key (i : Z) (kb : KeyBindings.t) : option Z :=
  if (i =? 0)%Z then hd_error (KeyBindings.pause kb)
  else if (i =? 1)%Z then hd_error (KeyBindings.resume kb)
  else if (i =? 2)%Z then hd_error (KeyBindings.up kb)
  else if (i =? 3)%Z then hd_error (KeyBindings.down kb)
  else if (i =? 4)%Z then hd_error (KeyBindings.left kb)
  else if (i =? 5)%Z then hd_error (KeyBindings.right kb)
  else Some 0.

(** The key name [draw_keybinds] writes in row [i]. *)
Definition entry_label (i : Z) (kb : KeyBindings.t) : option string :=
  key_code <- entry_key i kb ;; Some (key_code_to_string key_code).

(** [draw_countdown]: the text on the screen when the clock reads
    [clock_now]; [ticks_per_ms] as in [Game.to_ms]. *)
Definition draw_countdown (ticks_per_ms clock_now : Z) (g : Game.t) : option string :=
  let elapsed_ms := Game.to_ms ticks_per_ms (clock_now - Game.countdown_start_time g) in
  difference <- checked (Game.countdown_duration_ms g - elapsed_ms) ;;
  let remaining_secs := Z.max 0 (Z.quot difference 1000) in
  shown <- checked (remaining_secs + 1) ;;
  Some ("Starting in " ++ to_string shown ++ "...").

(** [draw_game_over]: the two lines with numbers. *)
Definition draw_game_over (g : Game.t) : string * string :=
  ("Length: " ++ to_string (Snake.get_length (Game.snake g)),
   "BEST LENGTH: " ++ to_string (Game.best_length g)).

End Draw.

(** * Vocabulary of the properties

    Definitions used to state the properties; none of them is part of the
    program. *)

(** The exact opposite of a heading. *)
Definition opposite (d : Direction) : Direction :=
  match d with
  | Up => Down
  | Down => Up
  | Left => Right
  | Right => Left
  end.

(** One grid unit along a heading, as a displacement (columns, rows); rows
    grow downwards. *)
Definition unit_step (d : Direction) : Z * Z :=
  match d with
  | Up => (0, -1)
  | Down => (0, 1)
  | Left => (-1, 0)
  | Right => (1, 0)
  end.

Definition translate (d : Direction) (p : Point) : Point :=
  mkPoint (x p + fst (unit_step d)) (y p + snd (unit_step d)).

(** A cell from which a step in any direction stays inside [int]. *)
Definition steppable (p : Point) : Prop :=
  INT_MIN < x p < INT_MAX /\ INT_MIN < y p < INT_MAX.

(** Where the head lands after the boundary step of a tick. *)
Definition landing (wrapping : bool) (moved : Point) : Point :=
  if wrapping then fst (Game.wrap_head moved) else moved.

(** What is left of the old segments behind the new head. *)
Definition trailing (s : Snake.t) : list Point :=
  if Snake.grow_snake s then Snake.segments s else removelast (Snake.segments s).

(** The end of a tick (lines 375-378) in closed form. *)
Definition settle (f : Frame) (head : Point) (g : Game.t) : Game.t :=
  if Snake.collision_loop head (tl (Snake.segments (Game.snake g)))
  then Game.game_over g
  else if same_cell head (Food.position (Game.food g))
  then Game.set_food (Food.respawn f (Game.food g))
         (Game.set_snake (Snake.grow (Game.snake g)) g)
  else g.

(** The state a tick leaves, for a snake whose head is [h]. *)
Definition ticked (f : Frame) (g : Game.t) (h : Point) : Game.t :=
  let d := Snake.current_direction (Game.snake g) in
  let moved := translate d h in
  let body := trailing (Game.snake g) in
  let g1 :=
    Game.set_last_move_time (now f) (Game.set_snake (Snake.mk (moved :: body) d false) g) in
  if Game.wrapping_enabled g
  then
    let head' := landing true moved in
    settle f head' (Game.set_snake (Snake.mk (head' :: body) d false) g1)
  else if in_grid moved then settle f moved g1
  else Game.game_over g1.

(** The snake made exactly one step: its segments are one new cell, not the
    old head, in front of the old segments (without the last one unless
    growth was pending). *)
Definition advanced_once (s s' : Snake.t) : Prop :=
  exists new_head : Point,
    Snake.get_head s <> Some new_head /\
    Snake.segments s' = new_head :: trailing s.

(** The keys bound to the action that requests a direction. *)
Definition action_keys (d : Direction) (kb : KeyBindings.t) : list Z :=
  match d with
  | Up => KeyBindings.up kb
  | Down => KeyBindings.down kb
  | Left => KeyBindings.left kb
  | Right => KeyBindings.right kb
  end.

(** The first held movement action in the order up, down, left, right. *)
Definition first_held (f : Frame) (kb : KeyBindings.t) : option Direction :=
  find (fun d => Game.is_action_down f (action_keys d kb)) [Up; Down; Left; Right].

(** The heading after a request: the reversal guard. *)
Definition guarded (cur : Direction) (request : option Direction) : Direction :=
  match request with
  | None => cur
  | Some d => if Direction_eq_dec d (opposite cur) then cur else d
  end.

(** The states in which a session is under way: the snake on the board is
    the one being played. *)
Definition in_session (g : Game.t) : bool :=
  match Game.app_state g with
  | Playing | Pause | ConfirmRestart | ConfirmMainMenu => true
  | Settings | Keybinds =>
      if GameState_eq_dec (Game.previous_state g) Pause then true else false
  | StartMenu | Countdown | GameOver => false
  end.

Definition head_in_grid (s : Snake.t) : Prop :=
  exists (h : Point) (rest : list Point),
    Snake.segments s = h :: rest /\ in_grid h = true.

Record invariant (g : Game.t) : Prop := {
  inv_length : 1 <= Game.initial_snake_length g <= 10;
  inv_previous : Game.previous_state g = StartMenu \/ Game.previous_state g = Pause;
  inv_head : in_session g = true -> head_in_grid (Game.snake g)
}.

(** Every cell of a list is on the board. *)
Definition all_in_grid (l : list Point) : Prop :=
  Forall (fun p => in_grid p = true) l.

(** [p] is the cell one step from [q] in some direction, across the edge of
    the board if need be. *)
Definition neighbour (p q : Point) : Prop :=
  exists d : Direction, p = fst (Game.wrap_head (translate d q)).

(** Each cell is one step ahead of the next one. *)
Fixpoint chain (l : list Point) : Prop :=
  match l with
  | p :: (q :: _) as behind => neighbour p q /\ chain behind
  | _ => True
  end.

(** The cells of the board, column by column. *)
Definition board_cells : list Point :=
  flat_map
    (fun i => map (fun j => mkPoint (Z.of_nat i) (Z.of_nat j))
                  (seq 0 (Z.to_nat GRID_HEIGHT)))
    (seq 0 (Z.to_nat GRID_WIDTH)).

(** A snake as it is during play. *)
Record session_shape (s : Snake.t) : Prop := {
  shape_head : Snake.segments s <> [];
  shape_in_grid : all_in_grid (Snake.segments s);
  shape_distinct : NoDup (Snake.segments s);
  shape_chain : chain (Snake.segments s)
}.

Definition bound_keys (kb : KeyBindings.t) : list (list Z) :=
  [ KeyBindings.pause kb; KeyBindings.resume kb; KeyBindings.up kb;
    KeyBindings.down kb; KeyBindings.left kb; KeyBindings.right kb ].

(** What holds of every state of a run, beyond [invariant]. *)
Record well_formed (g : Game.t) : Prop := {
  wf_invariant : invariant g;
  wf_tick_rate : 50 <= Game.tick_rate_ms g <= 500;
  wf_duration : Game.countdown_duration_ms g = 3000;
  wf_bindings :
    Forall (fun keys => keys <> [] /\ (length keys <= 2)%nat)
           (bound_keys (Game.key_bindings g));
  wf_edit : -1 <= Game.current_edit_action g <= 5;
  wf_session : in_session g = true -> session_shape (Game.snake g);
  wf_game_over :
    Game.app_state g = GameOver ->
    Snake.get_length (Game.snake g) <= Game.best_length g
}.

(** The arrows of the state machine, self-loops included. *)
Definition allowed (from to : GameState) : bool :=
  match from, to with
  | StartMenu, (StartMenu | Countdown | Settings) => true
  | Settings, (Settings | Keybinds | StartMenu | Pause) => true
  | Keybinds, (Keybinds | Settings) => true
  | Countdown, (Countdown | Playing) => true
  | Playing, (Playing | Pause | GameOver) => true
  | Pause, (Pause | Playing | Settings | ConfirmRestart | ConfirmMainMenu) => true
  | ConfirmRestart, (ConfirmRestart | Playing | Pause) => true
  | ConfirmMainMenu, (ConfirmMainMenu | StartMenu | Pause) => true
  | GameOver, (GameOver | StartMenu) => true
  | _, _ => false
  end.

(** The two draws of [Food::respawn] lie in the ranges given to the
    distributions, [0 .. GRID_WIDTH - 1] and [0 .. GRID_HEIGHT - 1]. *)
Definition draws_in_range (f : Frame) : Prop :=
  0 <= dist_x f <= GRID_WIDTH - 1 /\ 0 <= dist_y f <= GRID_HEIGHT - 1.

(** A frame of the Playing state runs a tick. *)
Definition runs_tick (tpm : Z) (f : Frame) (g : Game.t) : bool :=
  negb (Game.is_action_pressed f (KeyBindings.pause (Game.key_bindings g)))
  && Game.tick_due tpm f g.

(** * Frames and states of concrete runs

    A clock that counts nanoseconds, the default settings and key bindings,
    the mouse resting on the Play button unless said otherwise. *)

(** A frame in which nothing is pressed or held, with the mouse at pixel
    ([mx], [my]): [mouse_in_rect] is raylib's [CheckCollisionPointRec]
    for that point.  Concrete frames are built from it. *)
Definition point_in_rect (mx my : Z) (r : Rectangle) : bool :=
  (mx >=? rect_x r) && (mx <? rect_x r + rect_width r)
  && (my >=? rect_y r) && (my <? rect_y r + rect_height r).

Definition idle_frame (mx my time : Z) : Frame :=
  mkFrame (fun _ => false) (fun _ => false) 0 false false
          (point_in_rect mx my) (fun _ _ => 0) time time 7 7.

Definition with_click (f : Frame) : Frame :=
  mkFrame (IsKeyDown f) (IsKeyPressed f) (GetKeyPressed f) true true
          (mouse_in_rect f) (slider_units f) (now f) (now_again f)
          (dist_x f) (dist_y f).

(** [key] goes down in this frame: it is both newly pressed and held. *)
Definition with_key_pressed (key : Z) (f : Frame) : Frame :=
  mkFrame (fun k => (k =? key) || IsKeyDown f k)
          (fun k => (k =? key) || IsKeyPressed f k) key
          (IsMouseButtonPressed f) (IsMouseButtonDown f)
          (mouse_in_rect f) (slider_units f) (now f) (now_again f)
          (dist_x f) (dist_y f).

(** [key] is held in this frame (pressed in an earlier one). *)
Definition with_key_down (key : Z) (f : Frame) : Frame :=
  mkFrame (fun k => (k =? key) || IsKeyDown f k)
          (IsKeyPressed f) (GetKeyPressed f)
          (IsMouseButtonPressed f) (IsMouseButtonDown f)
          (mouse_in_rect f) (slider_units f) (now f) (now_again f)
          (dist_x f) (dist_y f).

(** The random engine yields ([fx], [fy]) for the next respawn. *)
Definition with_draw (fx fy : Z) (f : Frame) : Frame :=
  mkFrame (IsKeyDown f) (IsKeyPressed f) (GetKeyPressed f)
          (IsMouseButtonPressed f) (IsMouseButtonDown f)
          (mouse_in_rect f) (slider_units f) (now f) (now_again f) fx fy.

Definition ns_per_ms : Z := 1000000.
Definition ms (n : Z) : Z := n * ns_per_ms.

Definition at_ms (time : Z) : Frame := idle_frame 400 230 (ms time).

Definition boot : Frame := idle_frame 0 0 0.
Definition click_play : Frame := with_click (idle_frame 400 230 (ms 1000)).
Definition countdown_over : Frame := idle_frame 400 230 (ms 4000).

(** The first Playing state of the session started at 1 s: the last tick is
    stamped 4 s, the snake heads right from the middle of the board. *)
Definition fresh_session : Game.t :=
  Game.mk Playing StartMenu 3 100 true 0 3000 (ms 1000)
          (Snake.mk [mkPoint 20 15; mkPoint 19 15; mkPoint 18 15] Right false)
          (Food.mk (mkPoint 7 7)) (ms 4000) KeyBindings.make (-1).

Definition paused_session : Game.t := Game.set_app_state Pause fresh_session.

(** Escape goes down 200 ms after the last tick. *)
Definition pause_after_interval : Frame :=
  with_key_pressed KEY_ESCAPE (idle_frame 400 230 (ms 4200)).

(** One second after the last tick, nothing pressed. *)
Definition late_frame : Frame := idle_frame 400 230 (ms 5000).

(** Three frames inside one tick interval and at its end: Up held 10 ms
    after the last tick, Left held 10 ms later, nothing held when the tick
    falls due. *)
Definition hold_up : Frame := with_key_down KEY_UP (idle_frame 400 230 (ms 4010)).

(** Up held on the frame in which the tick falls due. *)
Definition hold_up_at_tick : Frame :=
  with_key_down KEY_UP (idle_frame 400 230 (ms 4100)).
Definition tick_frame : Frame := idle_frame 400 230 (ms 4100).

(** A snake about to leave the board on the right. *)
Definition at_right_edge (wrapping : bool) : Game.t :=
  Game.mk Playing StartMenu 3 100 wrapping 0 3000 (ms 1000)
          (Snake.mk [mkPoint 39 15; mkPoint 38 15; mkPoint 37 15] Right false)
          (Food.mk (mkPoint 7 7)) (ms 4000) KeyBindings.make (-1).


(** Escape goes down five seconds after the last tick. *)
Definition press_resume : Frame :=
  with_key_pressed KEY_ESCAPE (idle_frame 400 230 (ms 9000)).

(** A snake of two segments that has just eaten. *)
Definition fed_snake : Snake.t := Snake.mk [mkPoint 20 15; mkPoint 19 15] Up true.

(** Two sessions in one process.  In the first the food lies right in front
    of the snake: it eats, grows to four segments and then turns back into
    itself.  The second session ends the same way with the three segments it
    started with. *)
Definition first_session : list Frame :=
  [ with_click (at_ms 1000); with_draw 21 15 (at_ms 4000);
    at_ms 4100; at_ms 4200;
    with_key_down KEY_UP (at_ms 4210); with_key_down KEY_LEFT (at_ms 4220);
    at_ms 4300 ].

Definition second_session : list Frame :=
  [ with_click (at_ms 5000); with_click (at_ms 6000); at_ms 9000;
    with_key_down KEY_UP (at_ms 9010); with_key_down KEY_LEFT (at_ms 9020);
    at_ms 9100 ].

(** The countdown started by the click at 1 s. *)
Definition counting_down : Game.t :=
  Game.mk Countdown StartMenu 3 100 true 0 3000 (ms 1000)
          (Snake.mk [mkPoint 20 15; mkPoint 19 15; mkPoint 18 15] Right false)
          (Food.mk (mkPoint 7 7)) 0 KeyBindings.make (-1).

(** A session whose food lies right in front of the snake. *)
Definition hungry_session : Game.t :=
  Game.mk Playing StartMenu 3 100 true 0 3000 (ms 1000)
          (Snake.mk [mkPoint 20 15; mkPoint 19 15; mkPoint 18 15] Right false)
          (Food.mk (mkPoint 21 15)) (ms 4000) KeyBindings.make (-1).

(** A click on the Settings button of the start menu, then on Back. *)
Definition click_settings : Frame := with_click (idle_frame 400 300 (ms 500)).
Definition click_back : Frame := with_click (idle_frame 700 550 (ms 600)).

(** * Properties of the snake *)

Lemma checked_in_range (z : Z) : INT_MIN <= z <= INT_MAX -> checked z = Some z.
Proof.
  intros Hz. unfold checked, in_int.
  destruct (Z.leb_spec INT_MIN z), (Z.leb_spec z INT_MAX); simpl; trivial; lia.
Qed.

Lemma step_translate (d : Direction) (p : Point) :
  steppable p -> Snake.step d p = Some (translate d p).
Proof.
  intros [Hx Hy]. destruct p as [px py]. simpl in Hx, Hy.
  destruct d; unfold Snake.step, translate; simpl;
    rewrite checked_in_range by lia; simpl; repeat f_equal; lia.
Qed.

Lemma same_cell_eq (p q : Point) : same_cell p q = true <-> p = q.
Proof.
  destruct p as [px py], q as [qx qy]. unfold same_cell. simpl.
  rewrite andb_true_iff, !Z.eqb_eq. split.
  - intros [-> ->]. reflexivity.
  - intros H. injection H. auto.
Qed.

Lemma same_cell_refl (p : Point) : same_cell p p = true.
Proof. apply same_cell_eq. reflexivity. Qed.

Lemma collision_loop_In (head : Point) (rest : list Point) :
  Snake.collision_loop head rest = true <-> In head rest.
Proof.
  induction rest as [|p rest IH]; simpl.
  - split; [discriminate | tauto].
  - destruct (same_cell p head) eqn:E.
    + apply same_cell_eq in E. tauto.
    + rewrite IH. split; [tauto|]. intros [H|H]; [|exact H].
      subst p. rewrite same_cell_refl in E. discriminate.
Qed.

Lemma init_loop_columns (n : nat) (i : Z) (p : Point) :
  In p (Snake.init_loop n i) -> x p <= Z.quot GRID_WIDTH 2 - i.
Proof.
  revert i. induction n as [|n IH]; intros i; cbn [Snake.init_loop In].
  - tauto.
  - intros [<-|H]; [cbn [x]; lia|]. apply IH in H. lia.
Qed.

Lemma init_loop_length (n : nat) (i : Z) : length (Snake.init_loop n i) = n.
Proof. revert i. induction n as [|n IH]; intros i; simpl; [|rewrite IH]; trivial. Qed.

Lemma removelast_shift {A : Type} (a : A) (l : list A) (i : nat) :
  (i < length l)%nat ->
  nth_error (removelast (a :: l)) i = nth_error (a :: l) i.
Proof.
  revert a i. induction l as [|b l IH]; intros a i Hi; simpl in Hi; [lia|].
  destruct i as [|i]; [reflexivity|].
  change (removelast (a :: b :: l)) with (a :: removelast (b :: l)).
  cbn [nth_error]. apply IH. lia.
Qed.

Lemma removelast_cons_length {A : Type} (a : A) (l : list A) :
  length (removelast (a :: l)) = length l.
Proof.
  revert a. induction l as [|b l IH]; intros a; [reflexivity|].
  change (removelast (a :: b :: l)) with (a :: removelast (b :: l)).
  cbn [length]. rewrite IH. reflexivity.
Qed.

(** [get_length] is the number of segments as long as that fits an [int]. *)
Lemma get_length_exact (s : Snake.t) :
  Z.of_nat (length (Snake.segments s)) <= INT_MAX ->
  Snake.get_length s = Z.of_nat (length (Snake.segments s)).
Proof.
  unfold Snake.get_length, to_int, INT_MAX. intros H.
  rewrite Z.mod_small by lia. lia.
Qed.

Lemma set_direction_cases (s : Snake.t) (d : Direction) :
  Snake.set_direction d s =
  if Direction_eq_dec d (opposite (Snake.current_direction s))
  then s
  else Snake.mk (Snake.segments s) d (Snake.grow_snake s).
Proof.
  destruct s as [segs cur gr]. unfold Snake.set_direction.
  destruct cur, d; reflexivity.
Qed.

(** C6.  [set_direction d] makes [d] the heading unless [d] is the exact
    opposite of the current heading (Up/Down, Left/Right); in that case, for
    each of the four opposite pairs, the snake is returned as it was.  In
    both cases the segments and the pending-growth flag are untouched. *)
Theorem set_direction_reversal_guard (s : Snake.t) (d : Direction) :
  Snake.set_direction d s =
  (if Direction_eq_dec d (opposite (Snake.current_direction s))
   then s
   else Snake.mk (Snake.segments s) d (Snake.grow_snake s)) /\
  (d = opposite (Snake.current_direction s) -> Snake.set_direction d s = s) /\
  (d <> opposite (Snake.current_direction s) ->
   Snake.current_direction (Snake.set_direction d s) = d) /\
  Snake.segments (Snake.set_direction d s) = Snake.segments s /\
  Snake.grow_snake (Snake.set_direction d s) = Snake.grow_snake s.
Proof.
  rewrite set_direction_cases.
  destruct (Direction_eq_dec d (opposite (Snake.current_direction s))) as [E|E].
  - repeat split; congruence.
  - repeat split; intros; try reflexivity; congruence.
Qed.

Lemma advance_shape (s : Snake.t) (h : Point) (rest : list Point) :
  Snake.segments s = h :: rest ->
  steppable h ->
  exists s' : Snake.t,
    Snake.update s = Some s' /\
    Snake.segments s' =
      translate (Snake.current_direction s) h ::
      (if Snake.grow_snake s then Snake.segments s
       else removelast (Snake.segments s)) /\
    Snake.grow_snake s' = false /\
    Snake.current_direction s' = Snake.current_direction s.
Proof.
  intros Hsegs Hstep. destruct s as [segs cur gr]. simpl in Hsegs. subst segs.
  unfold Snake.update, Snake.get_head.
  cbn [Snake.segments Snake.current_direction Snake.grow_snake bind].
  rewrite (step_translate cur h Hstep). cbn [bind].
  destruct gr; cbn [negb]; eexists; (split; [reflexivity|]);
    cbn [Snake.segments Snake.grow_snake Snake.current_direction].
  - repeat split.
  - change (removelast (translate cur h :: h :: rest))
      with (translate cur h :: removelast (h :: rest)).
    repeat split.
Qed.

(** C4.  On a snake with at least one segment (whose head can step without
    leaving [int]), [update] returns a snake whose head is the old head moved
    by one grid unit along the heading, followed by the old segments: all of
    them when growth was pending (length plus one), all but the last
    otherwise (length unchanged).  The flag is clear afterwards, the heading
    is kept, and segment [i] of the old snake is segment [i+1] of the new. *)
Theorem update_advances_head (s : Snake.t) (h : Point) (rest : list Point) :
  Snake.segments s = h :: rest ->
  steppable h ->
  exists s' : Snake.t,
    Snake.update s = Some s' /\
    Snake.segments s' =
      translate (Snake.current_direction s) h ::
      (if Snake.grow_snake s then Snake.segments s
       else removelast (Snake.segments s)) /\
    length (Snake.segments s') =
      (if Snake.grow_snake s then S (length (Snake.segments s))
       else length (Snake.segments s)) /\
    Snake.grow_snake s' = false /\
    Snake.current_direction s' = Snake.current_direction s /\
    (forall i : nat,
        (S i < length (Snake.segments s'))%nat ->
        nth_error (Snake.segments s') (S i) = nth_error (Snake.segments s) i).
Proof.
  intros Hsegs Hstep. destruct s as [segs cur gr]. simpl in Hsegs. subst segs.
  unfold Snake.update, Snake.get_head.
  cbn [Snake.segments Snake.current_direction Snake.grow_snake bind].
  rewrite (step_translate cur h Hstep). cbn [bind].
  destruct gr; cbn [negb].
  - eexists. split; [reflexivity|]. cbn [Snake.segments Snake.grow_snake Snake.current_direction].
    repeat split.
  - eexists. split; [reflexivity|]. cbn [Snake.segments Snake.grow_snake Snake.current_direction].
    change (removelast (translate cur h :: h :: rest))
      with (translate cur h :: removelast (h :: rest)).
    repeat split.
    + cbn [length]. rewrite removelast_cons_length. reflexivity.
    + intros i Hi. cbn [nth_error]. apply removelast_shift.
      cbn [length] in Hi. rewrite removelast_cons_length in Hi. lia.
Qed.

(** C8.  On a snake with at least one segment [has_self_collision] answers,
    and it answers [true] exactly when some index greater than 0 holds the
    cell of index 0.  A snake just built by [Snake(n)], [n >= 1], has no
    self-collision. *)
Theorem has_self_collision_iff_head_repeated :
  (forall s : Snake.t,
      Snake.segments s <> [] ->
      exists b : bool,
        Snake.has_self_collision s = Some b /\
        (b = true <->
         exists (i : nat) (head : Point),
           (0 < i)%nat /\
           nth_error (Snake.segments s) 0 = Some head /\
           nth_error (Snake.segments s) i = Some head)) /\
  (forall n : Z,
      1 <= n ->
      Snake.segments (Snake.make n) <> [] /\
      Snake.has_self_collision (Snake.make n) = Some false).
Proof.
  split.
  - intros [segs cur gr]. cbn [Snake.segments]. intros Hne.
    destruct segs as [|head rest]; [congruence|].
    exists (Snake.collision_loop head rest). split; [reflexivity|].
    rewrite collision_loop_In. split.
    + intros Hin. apply In_nth_error in Hin. destruct Hin as [j Hj].
      exists (S j), head. repeat split; [lia | exact Hj].
    + intros (i & p & Hi & H0 & Hp). cbn [nth_error] in H0.
      injection H0 as <-. destruct i as [|j]; [lia|].
      cbn [nth_error] in Hp. eapply nth_error_In. exact Hp.
  - intros n Hn. unfold Snake.make, Snake.has_self_collision. cbn [Snake.segments].
    destruct (Z.to_nat n) as [|m] eqn:E; [lia|].
    cbn [Snake.init_loop]. split; [discriminate|]. f_equal.
    destruct (Snake.collision_loop _ _) eqn:C; [|reflexivity].
    apply collision_loop_In in C. apply init_loop_columns in C.
    cbn [x] in C. lia.
Qed.

(** * Properties of the game *)

Section GameProperties.

(** The resolution of the clock; no property below depends on its value. *)
Variable tpm : Z.

Lemma update_when_playing (f : Frame) (g : Game.t) :
  Game.app_state g = Playing -> Game.update tpm f g = Game.update_playing tpm f g.
Proof. intros H. unfold Game.update. rewrite H. reflexivity. Qed.

Lemma update_when_pause (f : Frame) (g : Game.t) :
  Game.app_state g = Pause -> Game.update tpm f g = Some (Game.update_pause f g).
Proof. intros H. unfold Game.update. rewrite H. reflexivity. Qed.

(** [sample_movement] assigns to the snake only, and to its heading only. *)
Lemma sample_movement_frame (f : Frame) (g : Game.t) :
  exists s : Snake.t,
    Game.sample_movement f g = Game.set_snake s g /\
    Snake.segments s = Snake.segments (Game.snake g) /\
    Snake.grow_snake s = Snake.grow_snake (Game.snake g).
Proof.
  unfold Game.sample_movement.
  assert (Hdir : forall d,
             Snake.segments (Snake.set_direction d (Game.snake g))
             = Snake.segments (Game.snake g)
             /\ Snake.grow_snake (Snake.set_direction d (Game.snake g))
                = Snake.grow_snake (Game.snake g)).
  { intros d. rewrite set_direction_cases.
    destruct (Direction_eq_dec _ _); split; reflexivity. }
  repeat match goal with
         | |- context [if ?b then _ else _] => destruct b
         end;
    try (eexists; split; [reflexivity | apply Hdir]).
  exists (Game.snake g). destruct g; repeat split.
Qed.

Lemma wrap_head_flag (p : Point) :
  snd (Game.wrap_head p) = false -> fst (Game.wrap_head p) = p.
Proof.
  destruct p as [px py]. unfold Game.wrap_head. cbn [x y].
  destruct (px <? 0); [destruct (py <? 0), (py >=? GRID_HEIGHT); discriminate|].
  destruct (px >=? GRID_WIDTH);
    destruct (py <? 0); try discriminate;
    destruct (py >=? GRID_HEIGHT); try discriminate; reflexivity.
Qed.

Lemma in_grid_out (p : Point) :
  (x p <? 0) || (x p >=? GRID_WIDTH) || (y p <? 0) || (y p >=? GRID_HEIGHT)
  = negb (in_grid p).
Proof. unfold in_grid. rewrite negb_involutive. reflexivity. Qed.

Lemma after_boundary_closed (f : Frame) (head : Point) (body : list Point) (g : Game.t) :
  Snake.segments (Game.snake g) = head :: body ->
  Game.after_boundary f head g = Some (settle f head g).
Proof.
  intros Hs. unfold Game.after_boundary, settle, Snake.has_self_collision, Food.get_position.
  rewrite Hs. cbn [bind tl].
  destruct (Snake.collision_loop head body); [reflexivity|].
  destruct (same_cell head (Food.position (Game.food g))); reflexivity.
Qed.

(** One tick in closed form: one [Snake::update], the clock reading stored,
    the boundary policy applied to the new head, then [settle]. *)
Lemma simulation_tick_closed (f : Frame) (g : Game.t) (h : Point) (rest : list Point) :
  Snake.segments (Game.snake g) = h :: rest ->
  steppable h ->
  let d := Snake.current_direction (Game.snake g) in
  let moved := translate d h in
  let body := trailing (Game.snake g) in
  let g1 :=
    Game.set_last_move_time (now f) (Game.set_snake (Snake.mk (moved :: body) d false) g) in
  Snake.update (Game.snake g) = Some (Snake.mk (moved :: body) d false) /\
  Game.simulation_tick f g =
  Some (if Game.wrapping_enabled g
        then
          let head' := landing true moved in
          settle f head' (Game.set_snake (Snake.mk (head' :: body) d false) g1)
        else if in_grid moved then settle f moved g1
        else Game.game_over g1).
Proof.
  intros Hsegs Hstep d moved body g1.
  assert (Hup : Snake.update (Game.snake g) = Some (Snake.mk (moved :: body) d false)).
  { destruct (advance_shape (Game.snake g) h rest Hsegs Hstep)
      as (s' & Hs' & Hseg' & Hgrow' & Hdir').
    rewrite Hs'. f_equal. destruct s' as [segs' d' gr']. cbn in Hseg', Hgrow', Hdir'.
    subst. reflexivity. }
  split; [exact Hup|].
  unfold Game.simulation_tick. rewrite Hup. cbn [bind Snake.get_head Snake.segments].
  change (Game.wrapping_enabled (Game.set_last_move_time _ _))
    with (Game.wrapping_enabled g).
  fold g1.
  destruct (Game.wrapping_enabled g).
  - unfold landing. destruct (Game.wrap_head moved) as [head' wrapped] eqn:Hw.
    cbn [fst]. destruct wrapped.
    + cbn [Snake.set_head Snake.segments bind Snake.current_direction Snake.grow_snake].
      apply (after_boundary_closed f head' body). reflexivity.
    + assert (head' = moved) as ->.
      { rewrite <- (wrap_head_flag moved); rewrite Hw; reflexivity. }
      cbn [bind]. apply (after_boundary_closed f moved body). reflexivity.
  - rewrite in_grid_out. destruct (in_grid moved); cbn [negb]; [|reflexivity].
    apply (after_boundary_closed f moved body). reflexivity.
Qed.

(** The end of a tick never touches the segments, the heading or the
    stored clock reading. *)
Lemma settle_frame (f : Frame) (head : Point) (g : Game.t) :
  Snake.segments (Game.snake (settle f head g)) = Snake.segments (Game.snake g) /\
  Snake.current_direction (Game.snake (settle f head g))
  = Snake.current_direction (Game.snake g) /\
  Game.last_move_time (settle f head g) = Game.last_move_time g /\
  Game.initial_snake_length (settle f head g) = Game.initial_snake_length g /\
  Game.previous_state (settle f head g) = Game.previous_state g /\
  (Game.app_state (settle f head g) = Game.app_state g
   \/ Game.app_state (settle f head g) = GameOver).
Proof.
  unfold settle.
  destruct (Snake.collision_loop _ _); [cbn; tauto|].
  destruct (same_cell _ _); cbn; tauto.
Qed.

Lemma tick_due_sample (f : Frame) (g : Game.t) :
  Game.tick_due tpm f (Game.sample_movement f g) = Game.tick_due tpm f g.
Proof.
  destruct (sample_movement_frame f g) as (s & -> & _). reflexivity.
Qed.

Lemma wrap_head_mod (p : Point) :
  -1 <= x p <= GRID_WIDTH ->
  -1 <= y p <= GRID_HEIGHT ->
  fst (Game.wrap_head p) = mkPoint (x p mod GRID_WIDTH) (y p mod GRID_HEIGHT).
Proof.
  destruct p as [px py]. unfold Game.wrap_head, GRID_WIDTH, GRID_HEIGHT. cbn [x y].
  intros Hx Hy. rewrite !Z.geb_leb.
  assert (Ex : (if px <? 0 then 39 else if 40 <=? px then 0 else px) = px mod 40).
  { destruct (Z.ltb_spec px 0).
    - replace px with (-1) by lia. reflexivity.
    - destruct (Z.leb_spec 40 px).
      + replace px with 40 by lia. reflexivity.
      + symmetry. apply Z.mod_small. lia. }
  assert (Ey : (if py <? 0 then 29 else if 30 <=? py then 0 else py) = py mod 30).
  { destruct (Z.ltb_spec py 0).
    - replace py with (-1) by lia. reflexivity.
    - destruct (Z.leb_spec 30 py).
      + replace py with 30 by lia. reflexivity.
      + symmetry. apply Z.mod_small. lia. }
  rewrite <- Ex, <- Ey.
  destruct (px <? 0); [destruct (py <? 0), (30 <=? py); reflexivity|].
  destruct (40 <=? px); destruct (py <? 0), (30 <=? py); reflexivity.
Qed.

Lemma in_grid_bounds (p : Point) :
  in_grid p = true <-> (0 <= x p < GRID_WIDTH /\ 0 <= y p < GRID_HEIGHT).
Proof.
  unfold in_grid. rewrite negb_true_iff, !orb_false_iff, !Z.geb_leb.
  rewrite !Z.ltb_ge, !Z.leb_gt. tauto.
Qed.

Lemma in_grid_steppable (p : Point) : in_grid p = true -> steppable p.
Proof.
  rewrite in_grid_bounds. unfold steppable, GRID_WIDTH, GRID_HEIGHT, INT_MIN, INT_MAX. lia.
Qed.

(** A unit step changes one coordinate only, by one. *)
Lemma translate_one_axis (d : Direction) (p : Point) :
  (x (translate d p) = x p /\ (y (translate d p) = y p - 1 \/ y (translate d p) = y p + 1))
  \/ (y (translate d p) = y p /\ (x (translate d p) = x p - 1 \/ x (translate d p) = x p + 1)).
Proof. destruct d; cbn; lia. Qed.

(** The head never lands on the cell it left. *)
Lemma landing_moves (w : bool) (d : Direction) (p : Point) :
  landing w (translate d p) <> p.
Proof.
  destruct p as [px py]. unfold landing, Game.wrap_head, GRID_WIDTH, GRID_HEIGHT.
  intros H. destruct w, d; cbn in H; rewrite ?Z.geb_leb in H;
    repeat match type of H with
           | context [?a <? ?b] => destruct (Z.ltb_spec a b)
           | context [?a <=? ?b] => destruct (Z.leb_spec a b)
           end; cbn in H; injection H; lia.
Qed.

Lemma simulation_tick_ticked (f : Frame) (g : Game.t) (h : Point) (rest : list Point) :
  Snake.segments (Game.snake g) = h :: rest ->
  steppable h ->
  Game.simulation_tick f g = Some (ticked f g h).
Proof. intros Hs Hh. apply (simulation_tick_closed f g h rest Hs Hh). Qed.

Lemma ticked_frame (f : Frame) (g : Game.t) (h : Point) :
  Snake.segments (Game.snake (ticked f g h))
  = landing (Game.wrapping_enabled g) (translate (Snake.current_direction (Game.snake g)) h)
    :: trailing (Game.snake g) /\
  Snake.current_direction (Game.snake (ticked f g h))
  = Snake.current_direction (Game.snake g) /\
  Game.last_move_time (ticked f g h) = now f.
Proof.
  unfold ticked.
  destruct (Game.wrapping_enabled g).
  - match goal with |- context [settle f ?hd ?gg] =>
      destruct (settle_frame f hd gg) as (-> & -> & -> & _) end.
    repeat split.
  - destruct (in_grid _).
    + match goal with |- context [settle f ?hd ?gg] =>
        destruct (settle_frame f hd gg) as (-> & -> & -> & _) end.
      repeat split.
    + repeat split.
Qed.

(** One frame in the Playing state, in closed form. *)
Lemma update_playing_closed (f : Frame) (g : Game.t) (h : Point) (rest : list Point) :
  Game.app_state g = Playing ->
  Snake.segments (Game.snake g) = h :: rest ->
  steppable h ->
  Game.update tpm f g =
  Some (if Game.is_action_pressed f (KeyBindings.pause (Game.key_bindings g))
        then Game.set_app_state Pause g
        else if Game.tick_due tpm f g
             then ticked f (Game.sample_movement f g) h
             else Game.sample_movement f g).
Proof.
  intros Hst Hs Hh. rewrite (update_when_playing f g Hst). unfold Game.update_playing.
  destruct (Game.is_action_pressed _ _); [reflexivity|].
  rewrite tick_due_sample. destruct (Game.tick_due tpm f g); [|reflexivity].
  destruct (sample_movement_frame f g) as (s & Hg1 & Hsegs & _).
  apply (simulation_tick_ticked f _ h rest); [|exact Hh].
  rewrite Hg1. cbn. congruence.
Qed.

Lemma advanced_once_changes (s s' : Snake.t) :
  advanced_once s s' -> Snake.segments s <> [] ->
  Snake.segments s' <> Snake.segments s.
Proof.
  intros (nh & Hne & Hs') Hnil Heq. rewrite Heq in Hs'.
  unfold Snake.get_head in Hne. destruct (Snake.segments s) as [|h rest]; [congruence|].
  injection Hs' as -> _. congruence.
Qed.

(** C1 (as amended).  On a frame in the Playing state, one simulation tick
    runs exactly when the pause action is not newly pressed and
    [now - last_move_time >= milliseconds(tick_rate_ms)].  When it runs the
    snake makes exactly one step, whatever the elapsed time, and
    [last_move_time] becomes [now]; when it does not, the segments, the
    growth flag and [last_move_time] are as before. *)
Theorem tick_gate_once_per_frame (f : Frame) (g : Game.t) (h : Point) (rest : list Point) :
  Game.app_state g = Playing ->
  Snake.segments (Game.snake g) = h :: rest ->
  steppable h ->
  exists g' : Game.t,
    Game.update tpm f g = Some g' /\
    (advanced_once (Game.snake g) (Game.snake g') <->
     Game.is_action_pressed f (KeyBindings.pause (Game.key_bindings g)) = false /\
     now f - Game.last_move_time g >= Game.tick_rate_ms g * tpm) /\
    (advanced_once (Game.snake g) (Game.snake g') ->
     Game.last_move_time g' = now f) /\
    (~ advanced_once (Game.snake g) (Game.snake g') ->
     Snake.segments (Game.snake g') = Snake.segments (Game.snake g) /\
     Snake.grow_snake (Game.snake g') = Snake.grow_snake (Game.snake g) /\
     Game.last_move_time g' = Game.last_move_time g).
Proof.
  intros Hst Hs Hh. eexists. split; [apply (update_playing_closed f g h rest Hst Hs Hh)|].
  assert (Hdue : Game.tick_due tpm f g = true <->
                 now f - Game.last_move_time g >= Game.tick_rate_ms g * tpm).
  { unfold Game.tick_due, Game.milliseconds. rewrite Z.geb_leb, Z.leb_le. lia. }
  destruct (sample_movement_frame f g) as (s & Hg1 & Hsegs & Hgrow).
  assert (Hstill : forall g2 : Game.t,
             Snake.segments (Game.snake g2) = Snake.segments (Game.snake g) ->
             ~ advanced_once (Game.snake g) (Game.snake g2)).
  { intros g2 E A. apply advanced_once_changes in A; [auto | rewrite Hs; discriminate]. }
  destruct (Game.is_action_pressed f _) eqn:Hp.
  - assert (N := Hstill (Game.set_app_state Pause g) eq_refl).
    repeat split; try tauto. intros [? _]. discriminate.
  - destruct (Game.tick_due tpm f g) eqn:Hd.
    + destruct (ticked_frame f (Game.sample_movement f g) h) as (Tsegs & _ & Tlast).
      assert (A : advanced_once (Game.snake g) (Game.snake (ticked f (Game.sample_movement f g) h))).
      { eexists. split; [|rewrite Tsegs; f_equal].
        - unfold Snake.get_head. rewrite Hs. intros E. injection E as E.
          symmetry in E. revert E. apply landing_moves.
        - rewrite Hg1. cbn. unfold trailing. rewrite Hsegs, Hgrow. reflexivity. }
      repeat split; try tauto.
    + assert (N := Hstill (Game.sample_movement f g)).
      rewrite Hg1 in N |- *. cbn in N |- *. specialize (N Hsegs).
      repeat split; try tauto.
      intros [_ Hge]. apply Hdue in Hge. discriminate.
Qed.

(** C10.  In the Playing state, a frame in which the pause action is newly
    pressed only sets the state to Pause, whether or not the tick interval
    has elapsed: the snake, the food and [last_move_time] are as before. *)
Theorem pause_press_preempts_tick (f : Frame) (g : Game.t) :
  Game.app_state g = Playing ->
  Game.is_action_pressed f (KeyBindings.pause (Game.key_bindings g)) = true ->
  exists g' : Game.t,
    Game.update tpm f g = Some g' /\
    g' = Game.set_app_state Pause g /\
    Game.app_state g' = Pause /\
    Game.snake g' = Game.snake g /\
    Game.food g' = Game.food g /\
    Game.last_move_time g' = Game.last_move_time g.
Proof.
  intros Hst Hp. exists (Game.set_app_state Pause g).
  rewrite (update_when_playing f g Hst). unfold Game.update_playing. rewrite Hp.
  repeat split.
Qed.



(** C3.  With wrap-around enabled, in a tick on a snake whose head is in
    the grid: the head [moved] produced by [Snake::update] is out of range
    on at most one axis; the snake after the frame is the advanced snake
    with [set_head] applied to [moved] reduced modulo the extents, so
    column [GRID_WIDTH] becomes 0 and column -1 becomes [GRID_WIDTH - 1],
    and the same for rows. *)
Theorem wrap_around_modulo_extent
    (f : Frame) (g : Game.t) (h : Point) (rest : list Point) :
  Game.app_state g = Playing ->
  Game.is_action_pressed f (KeyBindings.pause (Game.key_bindings g)) = false ->
  Game.tick_due tpm f g = true ->
  Game.wrapping_enabled g = true ->
  Snake.segments (Game.snake g) = h :: rest ->
  in_grid h = true ->
  exists (s1 s2 : Snake.t) (moved : Point) (g' : Game.t),
    Snake.update (Game.snake (Game.sample_movement f g)) = Some s1 /\
    Snake.get_head s1 = Some moved /\
    Game.update tpm f g = Some g' /\
    let corrected := mkPoint (x moved mod GRID_WIDTH) (y moved mod GRID_HEIGHT) in
    Snake.set_head corrected s1 = Some s2 /\
    Snake.segments (Game.snake g') = Snake.segments s2 /\
    Snake.get_head (Game.snake g') = Some corrected /\
    in_grid corrected = true /\
    (in_grid moved = true -> corrected = moved) /\
    (0 <= x moved < GRID_WIDTH \/ 0 <= y moved < GRID_HEIGHT) /\
    (x moved = GRID_WIDTH -> x corrected = 0) /\
    (x moved = -1 -> x corrected = GRID_WIDTH - 1) /\
    (y moved = GRID_HEIGHT -> y corrected = 0) /\
    (y moved = -1 -> y corrected = GRID_HEIGHT - 1).
Proof.
  intros Hst Hp Hd Hw Hs Hg.
  assert (Hh := in_grid_steppable h Hg).
  pose proof (update_playing_closed f g h rest Hst Hs Hh) as Hup.
  rewrite Hp, Hd in Hup.
  destruct (sample_movement_frame f g) as (s & Hg1 & Hsegs & Hgrow).
  assert (Hs1 : Snake.segments (Game.snake (Game.sample_movement f g)) = h :: rest).
  { rewrite Hg1. cbn. congruence. }
  destruct (simulation_tick_closed f _ h rest Hs1 Hh) as (Hadv & _).
  destruct (ticked_frame f (Game.sample_movement f g) h) as (Tsegs & _ & _).
  assert (Hw1 : Game.wrapping_enabled (Game.sample_movement f g) = true).
  { rewrite Hg1. exact Hw. }
  rewrite Hw1 in Tsegs.
  set (d := Snake.current_direction (Game.snake (Game.sample_movement f g))) in *.
  pose proof (translate_one_axis d h) as Hax.
  set (moved := translate d h) in *.
  apply in_grid_bounds in Hg.
  assert (Hx : -1 <= x moved <= GRID_WIDTH) by lia.
  assert (Hy : -1 <= y moved <= GRID_HEIGHT) by lia.
  unfold landing in Tsegs. rewrite (wrap_head_mod moved Hx Hy) in Tsegs.
  eexists _, _, moved, _.
  split; [exact Hadv|]. split; [reflexivity|]. split; [exact Hup|].
  cbn zeta. split; [reflexivity|].
  cbn [Snake.segments]. split; [exact Tsegs|].
  split; [unfold Snake.get_head; rewrite Tsegs; reflexivity|].
  split.
  { apply in_grid_bounds. cbn [x y]. unfold GRID_WIDTH, GRID_HEIGHT.
    split; apply Z.mod_pos_bound; lia. }
  split.
  { intros Hin. apply in_grid_bounds in Hin. destruct moved as [mx my]. cbn [x y] in *.
    rewrite !Z.mod_small by lia. reflexivity. }
  split.
  { lia. }
  cbn [x y]. unfold GRID_WIDTH, GRID_HEIGHT.
  repeat split; intros ->; reflexivity.
Qed.

(** C5.  With wrap-around disabled, in a tick whose [Snake::update] yields
    a head outside the grid, the frame ends in GameOver; the snake is
    exactly the advanced one (no growth, no collision handling), the food
    is the one before the frame, and the best length has been raised to the
    length of that snake if it was smaller. *)
Theorem boundary_collision_ends_session
    (f : Frame) (g : Game.t) (s1 : Snake.t) (moved : Point) :
  Game.app_state g = Playing ->
  Game.is_action_pressed f (KeyBindings.pause (Game.key_bindings g)) = false ->
  Game.tick_due tpm f g = true ->
  Game.wrapping_enabled g = false ->
  Snake.update (Game.snake (Game.sample_movement f g)) = Some s1 ->
  Snake.get_head s1 = Some moved ->
  in_grid moved = false ->
  exists g' : Game.t,
    Game.update tpm f g = Some g' /\
    Game.app_state g' = GameOver /\
    Game.snake g' = s1 /\
    Game.food g' = Game.food g /\
    Game.best_length g' = Z.max (Game.best_length g) (Snake.get_length s1) /\
    Game.last_move_time g' = now f.
Proof.
  intros Hst Hp Hd Hw Hadv Hhead Hout.
  rewrite (update_when_playing f g Hst). unfold Game.update_playing.
  rewrite Hp, tick_due_sample, Hd.
  destruct (sample_movement_frame f g) as (s & Hg1 & _).
  unfold Game.simulation_tick. rewrite Hadv. cbn [bind]. rewrite Hhead. cbn [bind].
  replace (Game.wrapping_enabled _) with false by (rewrite Hg1; cbn; congruence).
  rewrite in_grid_out, Hout. cbn [negb].
  eexists. split; [reflexivity|]. rewrite Hg1. cbn. repeat split.
Qed.


Lemma clamp_range (v lo hi : Z) : lo <= hi -> lo <= clamp v lo hi <= hi.
Proof.
  intros H. unfold clamp.
  destruct (Z.ltb_spec v lo); [lia|]. destruct (Z.ltb_spec hi v); lia.
Qed.

Lemma make_head_in_grid (n : Z) : 1 <= n -> head_in_grid (Snake.make n).
Proof.
  intros Hn. unfold head_in_grid, Snake.make. cbn [Snake.segments].
  destruct (Z.to_nat n) as [|m] eqn:E; [lia|].
  cbn [Snake.init_loop]. eexists _, _. split; reflexivity.
Qed.

Lemma invariant_make (f : Frame) : invariant (Game.make f).
Proof.
  split; cbn; [lia | auto |].
  discriminate.
Qed.

Ltac split_ifs :=
  repeat match goal with
         | |- context [if ?b then _ else _] =>
             match type of b with
             | bool => destruct b eqn:?
             | sumbool _ _ => destruct b
             end
         end.

Ltac finish_invariant Hlen Hprev Hhead E :=
  split; unfold in_session in *;
  try rewrite E in Hhead; try rewrite E; cbn in *;
  try rewrite E in Hhead; try rewrite E; cbn in *;
  [ first [exact Hlen | apply clamp_range; lia]
  | first [exact Hprev | left; reflexivity | right; reflexivity]
  | destruct Hprev as [Hprev|Hprev]; rewrite ?Hprev in *; cbn in *;
    try rewrite E in Hhead; try rewrite E; cbn in *;
    try discriminate; try congruence;
    first [exact Hhead | intros _; apply Hhead; reflexivity
          | intros _; apply make_head_in_grid; lia | idtac ] ].

(** Outside the Playing state [update] never fails and keeps the invariant. *)
Lemma invariant_off_board (f : Frame) (g : Game.t) :
  invariant g -> Game.app_state g <> Playing ->
  exists g' : Game.t, Game.update tpm f g = Some g' /\ invariant g'.
Proof.
  intros [Hlen Hprev Hhead] Hst. unfold Game.update.
  destruct (Game.app_state g) eqn:E; try congruence; clear Hst;
    eexists; (split; [reflexivity|]).
  - unfold Game.update_start_menu, Game.is_mouse_in_rect.
    split_ifs; finish_invariant Hlen Hprev Hhead E.
  - unfold Game.update_settings, Game.is_mouse_in_rect.
    split_ifs; finish_invariant Hlen Hprev Hhead E.
  - unfold Game.update_keybinds, Game.is_mouse_in_rect.
    destruct (find _ _); split_ifs; finish_invariant Hlen Hprev Hhead E.
  - unfold Game.update_countdown. split_ifs; finish_invariant Hlen Hprev Hhead E.
  - unfold Game.update_pause, Game.is_mouse_in_rect.
    split_ifs; finish_invariant Hlen Hprev Hhead E.
  - unfold Game.update_confirm_restart, Game.is_mouse_in_rect.
    split_ifs; finish_invariant Hlen Hprev Hhead E.
  - unfold Game.update_confirm_main_menu, Game.is_mouse_in_rect.
    split_ifs; finish_invariant Hlen Hprev Hhead E.
  - unfold Game.update_game_over. split_ifs; finish_invariant Hlen Hprev Hhead E.
Qed.

Lemma landing_in_grid (d : Direction) (h : Point) :
  in_grid h = true -> in_grid (landing true (translate d h)) = true.
Proof.
  intros Hg. apply in_grid_bounds in Hg.
  pose proof (translate_one_axis d h) as Hax.
  unfold landing. rewrite wrap_head_mod by lia.
  apply in_grid_bounds. cbn [x y]. unfold GRID_WIDTH, GRID_HEIGHT.
  split; apply Z.mod_pos_bound; lia.
Qed.

Lemma settle_invariant (f : Frame) (head : Point) (body : list Point) (g : Game.t) :
  1 <= Game.initial_snake_length g <= 10 ->
  (Game.previous_state g = StartMenu \/ Game.previous_state g = Pause) ->
  Game.app_state g = Playing ->
  Snake.segments (Game.snake g) = head :: body ->
  in_grid head = true ->
  invariant (settle f head g).
Proof.
  intros Hlen Hprev Hst Hs Hg.
  destruct (settle_frame f head g) as (Esegs & _ & _ & Elen & Eprev & Est).
  split; [rewrite Elen; exact Hlen | rewrite Eprev; exact Hprev |].
  intros _. exists head, body. rewrite Esegs. split; assumption.
Qed.

Lemma ticked_invariant (f : Frame) (g : Game.t) (h : Point) :
  1 <= Game.initial_snake_length g <= 10 ->
  (Game.previous_state g = StartMenu \/ Game.previous_state g = Pause) ->
  Game.app_state g = Playing ->
  in_grid h = true ->
  invariant (ticked f g h).
Proof.
  intros Hlen Hprev Hst Hg. unfold ticked.
  destruct (Game.wrapping_enabled g).
  - eapply settle_invariant; try eassumption; try reflexivity.
    apply landing_in_grid. exact Hg.
  - destruct (in_grid (translate _ h)) eqn:Hm.
    + eapply settle_invariant; try eassumption; reflexivity.
    + split; cbn; [exact Hlen | exact Hprev | discriminate].
Qed.

(** [update] never reaches undefined behaviour from a state that satisfies
    the invariant, and keeps the invariant. *)
Lemma invariant_update (f : Frame) (g : Game.t) :
  invariant g ->
  exists g' : Game.t, Game.update tpm f g = Some g' /\ invariant g'.
Proof.
  intros Hinv.
  destruct (GameState_eq_dec (Game.app_state g) Playing) as [Hst|Hst];
    [|apply invariant_off_board; assumption].
  destruct Hinv as [Hlen Hprev Hhead].
  destruct Hhead as (h & rest & Hs & Hg); [unfold in_session; rewrite Hst; reflexivity|].
  eexists. split;
    [apply (update_playing_closed f g h rest Hst Hs (in_grid_steppable h Hg))|].
  destruct (sample_movement_frame f g) as (s & Hg1 & Hsegs & _).
  assert (Hsample : invariant (Game.sample_movement f g)).
  { rewrite Hg1. split; cbn; [exact Hlen | exact Hprev |].
    intros _. exists h, rest. split; [congruence|exact Hg]. }
  destruct (Game.is_action_pressed f _).
  - split; cbn; [exact Hlen | exact Hprev |].
    intros _. exists h, rest. split; assumption.
  - destruct (Game.tick_due tpm f g); [|exact Hsample].
    apply ticked_invariant; try assumption; rewrite Hg1; cbn; assumption.
Qed.

Lemma run_app (a b : list Frame) (g : Game.t) :
  Game.run tpm (a ++ b) g = bind (Game.run tpm a g) (Game.run tpm b).
Proof.
  revert g. induction a as [|f a IH]; intros g; cbn [app Game.run bind]; [reflexivity|].
  destruct (Game.update tpm f g) as [g'|]; cbn [bind]; [apply IH | reflexivity].
Qed.

Lemma invariant_run (frames : list Frame) (g : Game.t) :
  invariant g ->
  exists g' : Game.t, Game.run tpm frames g = Some g' /\ invariant g'.
Proof.
  revert g. induction frames as [|f frames IH]; intros g Hinv; cbn [Game.run].
  - exists g. split; [reflexivity | exact Hinv].
  - destruct (invariant_update f g Hinv) as (g1 & -> & Hinv1). cbn [bind].
    apply IH. exact Hinv1.
Qed.

(** In every Playing state of a run of the process the snake has a head,
    and that head is inside the grid. *)
Lemma playing_head_in_grid (f0 : Frame) (frames : list Frame) (g : Game.t) :
  Game.run tpm frames (Game.make f0) = Some g ->
  Game.app_state g = Playing ->
  head_in_grid (Game.snake g).
Proof.
  intros Hrun Hst.
  destruct (invariant_run frames (Game.make f0) (invariant_make f0)) as (g' & Hrun' & Hinv).
  rewrite Hrun in Hrun'. injection Hrun' as <-.
  apply (inv_head g Hinv). unfold in_session. rewrite Hst. reflexivity.
Qed.

(** [best_length] is assigned by [game_over] only, which a frame reaches
    from the Playing state only and which ends the frame in GameOver. *)
Lemma best_length_update (f : Frame) (g g' : Game.t) :
  Game.update tpm f g = Some g' ->
  (Game.best_length g' = Game.best_length g
   /\ (Game.app_state g = Playing -> Game.app_state g' <> GameOver))
  \/ (Game.app_state g = Playing /\ Game.app_state g' = GameOver
      /\ Game.best_length g'
         = Z.max (Game.best_length g) (Snake.get_length (Game.snake g'))).
Proof.
  unfold Game.update. destruct (Game.app_state g) eqn:E;
    try (intros H; injection H as <-; left; split; [|discriminate]).
  - unfold Game.update_start_menu. split_ifs; reflexivity.
  - unfold Game.update_settings. split_ifs; reflexivity.
  - unfold Game.update_keybinds. destruct (find _ _); split_ifs; reflexivity.
  - unfold Game.update_countdown. split_ifs; reflexivity.
  - unfold Game.update_playing.
    destruct (Game.is_action_pressed f _);
      [intros H; injection H as <-; left; split; [reflexivity | discriminate]|].
    destruct (sample_movement_frame f g) as (s & -> & _).
    destruct (Game.tick_due tpm f _);
      [|intros H; injection H as <-; left; split; [reflexivity | cbn; congruence]].
    unfold Game.simulation_tick.
    destruct (Snake.update _) as [s1|]; [|discriminate]. cbn [bind].
    destruct (Snake.get_head s1) as [hd|]; [|discriminate]. cbn [bind].
    assert (Hend : forall (p : Point) (g2 : Game.t),
               Game.best_length g2 = Game.best_length g ->
               Game.app_state g2 = Playing ->
               Game.after_boundary f p g2 = Some g' ->
               (Game.best_length g' = Game.best_length g
                /\ (Playing = Playing -> Game.app_state g' <> GameOver))
               \/ (Playing = Playing /\ Game.app_state g' = GameOver
                   /\ Game.best_length g'
                      = Z.max (Game.best_length g) (Snake.get_length (Game.snake g')))).
    { intros p g2 Hb Hst. unfold Game.after_boundary.
      destruct (Snake.has_self_collision _) as [[|]|]; cbn [bind]; try discriminate.
      - intros H; injection H as <-. right. cbn. rewrite Hb. auto.
      - destruct (same_cell _ _); intros H; injection H as <-; left; cbn;
          (split; [exact Hb | congruence]). }
    destruct (Game.wrapping_enabled _).
    + destruct (Game.wrap_head hd) as [hd' w].
      destruct w; [destruct (Snake.set_head hd' s1) as [s2|]; [|discriminate]|];
        cbn [bind]; apply Hend; cbn; auto.
    + destruct (_ || _); [|apply Hend; cbn; auto].
      intros H; injection H as <-. right. cbn. auto.
  - unfold Game.update_pause. split_ifs; reflexivity.
  - unfold Game.update_confirm_restart. split_ifs; reflexivity.
  - unfold Game.update_confirm_main_menu. split_ifs; reflexivity.
  - unfold Game.update_game_over. split_ifs; reflexivity.
Qed.

(** From a state of a running process the state GameOver is entered from
    Playing only. *)
Lemma game_over_entered_from_playing (f : Frame) (g g' : Game.t) :
  invariant g ->
  Game.update tpm f g = Some g' ->
  Game.app_state g <> GameOver ->
  Game.app_state g' = GameOver ->
  Game.app_state g = Playing.
Proof.
  intros [_ Hprev _]. unfold Game.update. destruct (Game.app_state g) eqn:E;
    try reflexivity; try congruence; intros H; injection H as <-; intros _.
  - unfold Game.update_start_menu. split_ifs; cbn; congruence.
  - unfold Game.update_settings. split_ifs; cbn; destruct Hprev; congruence.
  - unfold Game.update_keybinds. destruct (find _ _); split_ifs; cbn; congruence.
  - unfold Game.update_countdown. split_ifs; cbn; congruence.
  - unfold Game.update_pause. split_ifs; cbn; congruence.
  - unfold Game.update_confirm_restart. split_ifs; cbn; congruence.
  - unfold Game.update_confirm_main_menu. split_ifs; cbn; congruence.
Qed.

Lemma best_length_monotone_run (frames : list Frame) (g g' : Game.t) :
  Game.run tpm frames g = Some g' -> Game.best_length g <= Game.best_length g'.
Proof.
  revert g. induction frames as [|f frames IH]; intros g; cbn [Game.run].
  - intros H. injection H as <-. lia.
  - destruct (Game.update tpm f g) as [g1|] eqn:Hup; [|discriminate]. cbn [bind].
    intros Hrun. apply IH in Hrun.
    destruct (best_length_update f g g1 Hup) as [[E _]|(_ & _ & E)]; lia.
Qed.

End GameProperties.

(** * The properties on concrete runs *)

Lemma fresh_session_reached :
  Game.run ns_per_ms [click_play; countdown_over] (Game.make boot) = Some fresh_session.
Proof. vm_compute. reflexivity. Qed.


(** C1, the claim as stated fails: in the Playing state, two tick intervals
    after the last tick, a frame in which the pause action is newly pressed
    runs no tick. *)
Lemma tick_gate_counterexample :
  Game.app_state fresh_session = Playing /\
  now pause_after_interval - Game.last_move_time fresh_session
  >= Game.tick_rate_ms fresh_session * ns_per_ms /\
  exists g' : Game.t,
    Game.update ns_per_ms pause_after_interval fresh_session = Some g' /\
    ~ advanced_once (Game.snake fresh_session) (Game.snake g') /\
    Game.snake g' = Game.snake fresh_session /\
    Game.last_move_time g' = Game.last_move_time fresh_session.
Proof.
  split; [reflexivity|]. split; [vm_compute; discriminate|].
  eexists. split; [vm_compute; reflexivity|].
  split; [|split; reflexivity].
  intros (nh & _ & Hs). vm_compute in Hs. congruence.
Qed.

Lemma tick_gate_once_per_frame_witness :
  Game.app_state fresh_session = Playing /\
  steppable (mkPoint 20 15) /\
  exists g' : Game.t,
    Game.update ns_per_ms late_frame fresh_session = Some g' /\
    (advanced_once (Game.snake fresh_session) (Game.snake g') <->
     Game.is_action_pressed late_frame (KeyBindings.pause (Game.key_bindings fresh_session))
     = false /\
     now late_frame - Game.last_move_time fresh_session
     >= Game.tick_rate_ms fresh_session * ns_per_ms) /\
    (advanced_once (Game.snake fresh_session) (Game.snake g') ->
     Game.last_move_time g' = now late_frame) /\
    (~ advanced_once (Game.snake fresh_session) (Game.snake g') ->
     Snake.segments (Game.snake g') = Snake.segments (Game.snake fresh_session) /\
     Snake.grow_snake (Game.snake g') = Snake.grow_snake (Game.snake fresh_session) /\
     Game.last_move_time g' = Game.last_move_time fresh_session).
Proof.
  assert (Hstep : steppable (mkPoint 20 15)) by (vm_compute; repeat split; reflexivity).
  split; [reflexivity|]. split; [exact Hstep|].
  apply (tick_gate_once_per_frame ns_per_ms late_frame fresh_session
           (mkPoint 20 15) [mkPoint 19 15; mkPoint 18 15]); [reflexivity | reflexivity | exact Hstep].
Defined.

(** Ten tick intervals have passed at [late_frame]; the snake is one cell
    further, not ten. *)
Example late_frame_one_step :
  exists g' : Game.t,
    Game.update ns_per_ms late_frame fresh_session = Some g' /\
    Snake.segments (Game.snake g') = [mkPoint 21 15; mkPoint 20 15; mkPoint 19 15] /\
    Game.last_move_time g' = ms 5000.
Proof. eexists. split; [vm_compute; reflexivity|]. vm_compute. repeat split. Qed.



(** Up held on the frame of the tick: the head goes up from (20, 15), along
    the heading sampled in that frame, not right along the heading the snake
    had before it. *)
Example tick_follows_sampled_heading :
  exists g' : Game.t,
    Game.update ns_per_ms hold_up_at_tick fresh_session = Some g' /\
    Snake.current_direction (Game.snake fresh_session) = Right /\
    Snake.current_direction (Game.snake g') = Up /\
    Snake.segments (Game.snake g') = [mkPoint 20 14; mkPoint 20 15; mkPoint 19 15].
Proof. eexists. split; [vm_compute; reflexivity|]. vm_compute. repeat split. Qed.

(** With Up and Left both held, Up wins; against a snake heading down the
    request for Up is dropped. *)
Example up_before_left :
  first_held (with_key_down KEY_LEFT hold_up) KeyBindings.make = Some Up /\
  guarded Right (Some Up) = Up /\
  guarded Down (Some Up) = Down.
Proof. vm_compute. repeat split. Qed.

Lemma wrap_around_modulo_extent_witness :
  Game.app_state (at_right_edge true) = Playing /\
  Game.tick_due ns_per_ms tick_frame (at_right_edge true) = true /\
  Game.wrapping_enabled (at_right_edge true) = true /\
  in_grid (mkPoint 39 15) = true /\
  exists (s1 s2 : Snake.t) (moved : Point) (g' : Game.t),
    Snake.update (Game.snake (Game.sample_movement tick_frame (at_right_edge true)))
    = Some s1 /\
    Snake.get_head s1 = Some moved /\
    Game.update ns_per_ms tick_frame (at_right_edge true) = Some g' /\
    let corrected := mkPoint (x moved mod GRID_WIDTH) (y moved mod GRID_HEIGHT) in
    Snake.set_head corrected s1 = Some s2 /\
    Snake.segments (Game.snake g') = Snake.segments s2 /\
    Snake.get_head (Game.snake g') = Some corrected /\
    in_grid corrected = true /\
    (in_grid moved = true -> corrected = moved) /\
    (0 <= x moved < GRID_WIDTH \/ 0 <= y moved < GRID_HEIGHT) /\
    (x moved = GRID_WIDTH -> x corrected = 0) /\
    (x moved = -1 -> x corrected = GRID_WIDTH - 1) /\
    (y moved = GRID_HEIGHT -> y corrected = 0) /\
    (y moved = -1 -> y corrected = GRID_HEIGHT - 1).
Proof.
  split; [reflexivity|]. split; [reflexivity|]. split; [reflexivity|].
  split; [reflexivity|].
  apply (wrap_around_modulo_extent ns_per_ms tick_frame (at_right_edge true)
           (mkPoint 39 15) [mkPoint 38 15; mkPoint 37 15]); reflexivity.
Defined.

(** The same tick, evaluated: the head leaves column 39 and re-enters at
    column 0; the body follows unchanged. *)
Example wrap_right_edge :
  exists g' : Game.t,
    Game.update ns_per_ms tick_frame (at_right_edge true) = Some g' /\
    Snake.segments (Game.snake g') = [mkPoint 0 15; mkPoint 39 15; mkPoint 38 15] /\
    Game.app_state g' = Playing.
Proof. eexists. split; [vm_compute; reflexivity|]. vm_compute. repeat split. Qed.

(** The four edges: what lines 367-370 make of a head one step outside. *)
Example wrap_head_edges :
  Game.wrap_head (mkPoint GRID_WIDTH 15) = (mkPoint 0 15, true) /\
  Game.wrap_head (mkPoint (-1) 15) = (mkPoint (GRID_WIDTH - 1) 15, true) /\
  Game.wrap_head (mkPoint 20 GRID_HEIGHT) = (mkPoint 20 0, true) /\
  Game.wrap_head (mkPoint 20 (-1)) = (mkPoint 20 (GRID_HEIGHT - 1), true) /\
  Game.wrap_head (mkPoint 20 15) = (mkPoint 20 15, false).
Proof. vm_compute. repeat split. Qed.

Lemma boundary_collision_ends_session_witness :
  Game.app_state (at_right_edge false) = Playing /\
  Game.tick_due ns_per_ms tick_frame (at_right_edge false) = true /\
  Game.wrapping_enabled (at_right_edge false) = false /\
  in_grid (mkPoint 40 15) = false /\
  exists g' : Game.t,
    Game.update ns_per_ms tick_frame (at_right_edge false) = Some g' /\
    Game.app_state g' = GameOver /\
    Game.snake g' = Snake.mk [mkPoint 40 15; mkPoint 39 15; mkPoint 38 15] Right false /\
    Game.food g' = Game.food (at_right_edge false) /\
    Game.best_length g'
    = Z.max (Game.best_length (at_right_edge false))
            (Snake.get_length
               (Snake.mk [mkPoint 40 15; mkPoint 39 15; mkPoint 38 15] Right false)) /\
    Game.last_move_time g' = now tick_frame.
Proof.
  split; [reflexivity|]. split; [reflexivity|]. split; [reflexivity|].
  split; [reflexivity|].
  apply (boundary_collision_ends_session ns_per_ms tick_frame (at_right_edge false)
           (Snake.mk [mkPoint 40 15; mkPoint 39 15; mkPoint 38 15] Right false)
           (mkPoint 40 15)); reflexivity.
Defined.



(** The session is paused 50 ms after its last tick and resumed at 9 s.  On
    the frame one millisecond after the resume the tick is due and runs. *)
Example tick_right_after_resume :
  exists g1 g2 : Game.t,
    Game.update ns_per_ms press_resume paused_session = Some g1 /\
    Game.app_state g1 = Playing /\
    Game.last_move_time g1 = ms 4000 /\
    Game.update ns_per_ms (idle_frame 400 230 (ms 9001)) g1 = Some g2 /\
    Snake.segments (Game.snake g2) = [mkPoint 21 15; mkPoint 20 15; mkPoint 19 15] /\
    Game.last_move_time g2 = ms 9001.
Proof.
  eexists _, _. split; [vm_compute; reflexivity|].
  split; [reflexivity|]. split; [reflexivity|].
  split; [vm_compute; reflexivity|]. vm_compute. repeat split.
Qed.

Lemma pause_press_preempts_tick_witness :
  Game.app_state fresh_session = Playing /\
  Game.is_action_pressed pause_after_interval
    (KeyBindings.pause (Game.key_bindings fresh_session)) = true /\
  Game.tick_due ns_per_ms pause_after_interval fresh_session = true /\
  exists g' : Game.t,
    Game.update ns_per_ms pause_after_interval fresh_session = Some g' /\
    g' = Game.set_app_state Pause fresh_session /\
    Game.app_state g' = Pause /\
    Game.snake g' = Game.snake fresh_session /\
    Game.food g' = Game.food fresh_session /\
    Game.last_move_time g' = Game.last_move_time fresh_session.
Proof.
  split; [reflexivity|]. split; [reflexivity|]. split; [reflexivity|].
  apply (pause_press_preempts_tick ns_per_ms pause_after_interval fresh_session);
    reflexivity.
Defined.

Lemma update_advances_head_witness :
  Snake.segments fed_snake = [mkPoint 20 15; mkPoint 19 15] /\
  steppable (mkPoint 20 15) /\
  exists s' : Snake.t,
    Snake.update fed_snake = Some s' /\
    Snake.segments s' =
      translate (Snake.current_direction fed_snake) (mkPoint 20 15) ::
      (if Snake.grow_snake fed_snake then Snake.segments fed_snake
       else removelast (Snake.segments fed_snake)) /\
    length (Snake.segments s') =
      (if Snake.grow_snake fed_snake then S (length (Snake.segments fed_snake))
       else length (Snake.segments fed_snake)) /\
    Snake.grow_snake s' = false /\
    Snake.current_direction s' = Snake.current_direction fed_snake /\
    (forall i : nat,
        (S i < length (Snake.segments s'))%nat ->
        nth_error (Snake.segments s') (S i) = nth_error (Snake.segments fed_snake) i).
Proof.
  assert (Hstep : steppable (mkPoint 20 15)) by (vm_compute; repeat split; reflexivity).
  split; [reflexivity|]. split; [exact Hstep|].
  apply (update_advances_head fed_snake (mkPoint 20 15) [mkPoint 19 15]);
    [reflexivity | exact Hstep].
Defined.

Example update_fed_and_unfed :
  Snake.update fed_snake
  = Some (Snake.mk [mkPoint 20 14; mkPoint 20 15; mkPoint 19 15] Up false) /\
  Snake.update (Snake.mk [mkPoint 20 15; mkPoint 19 15] Up false)
  = Some (Snake.mk [mkPoint 20 14; mkPoint 20 15] Up false).
Proof. vm_compute. split; reflexivity. Qed.

Lemma has_self_collision_iff_head_repeated_witness :
  (Snake.segments (Snake.make 3) <> [] /\
   exists b : bool,
     Snake.has_self_collision (Snake.make 3) = Some b /\
     (b = true <->
      exists (i : nat) (head : Point),
        (0 < i)%nat /\
        nth_error (Snake.segments (Snake.make 3)) 0 = Some head /\
        nth_error (Snake.segments (Snake.make 3)) i = Some head)) /\
  (1 <= 3 /\
   Snake.segments (Snake.make 3) <> [] /\
   Snake.has_self_collision (Snake.make 3) = Some false).
Proof.
  assert (Hne : Snake.segments (Snake.make 3) <> []) by (vm_compute; discriminate).
  split.
  - split; [exact Hne|].
    apply (proj1 has_self_collision_iff_head_repeated (Snake.make 3)). exact Hne.
  - split; [lia|].
    apply (proj2 has_self_collision_iff_head_repeated 3). lia.
Defined.

(** The snake that the reversal between two ticks produces reports the
    collision; the snake built by [Snake(10)] does not. *)
Example self_collision_cases :
  Snake.has_self_collision
    (Snake.mk [mkPoint 19 15; mkPoint 20 15; mkPoint 19 15] Left false) = Some true /\
  Snake.has_self_collision (Snake.make 10) = Some false /\
  Snake.has_self_collision (Snake.mk [] Right false) = None.
Proof. vm_compute. repeat split. Qed.

(** The snake that ends the first session has four segments, and four is
    what [game_over] records. *)
Example game_over_counts_segments :
  exists g1 : Game.t,
    Game.run ns_per_ms first_session (Game.make boot) = Some g1 /\
    Game.app_state g1 = GameOver /\
    Snake.segments (Game.snake g1)
    = [mkPoint 21 15; mkPoint 22 15; mkPoint 21 15; mkPoint 20 15] /\
    Game.best_length g1 = Z.of_nat (length (Snake.segments (Game.snake g1))).
Proof. eexists. split; [vm_compute; reflexivity|]. vm_compute. repeat split. Qed.

Example shorter_later_session_keeps_best :
  exists g1 g2 : Game.t,
    Game.run ns_per_ms first_session (Game.make boot) = Some g1 /\
    Game.run ns_per_ms second_session g1 = Some g2 /\
    Game.app_state g1 = GameOver /\
    Snake.get_length (Game.snake g1) = 4 /\
    Game.best_length g1 = 4 /\
    Game.app_state g2 = GameOver /\
    Snake.get_length (Game.snake g2) = 3 /\
    Game.best_length g2 = 4.
Proof.
  eexists _, _. split; [vm_compute; reflexivity|].
  split; [vm_compute; reflexivity|]. vm_compute. repeat split.
Qed.

(** * More properties of the snake and of the game *)

Lemma Forall_removelast {A : Type} (P : A -> Prop) (l : list A) :
  Forall P l -> Forall P (removelast l).
Proof.
  induction l as [|a l IH]; intros H; [exact H|].
  destruct l as [|b l]; [constructor|].
  change (removelast (a :: b :: l)) with (a :: removelast (b :: l)).
  inversion H; subst. constructor; [assumption | apply IH; assumption].
Qed.

Lemma In_removelast {A : Type} (a : A) (l : list A) :
  In a (removelast l) -> In a l.
Proof.
  induction l as [|b l IH]; [tauto|].
  destruct l as [|c l]; [cbn; tauto|].
  change (removelast (b :: c :: l)) with (b :: removelast (c :: l)).
  intros [H|H]; [left; exact H | right; apply IH; exact H].
Qed.

Lemma NoDup_removelast {A : Type} (l : list A) : NoDup l -> NoDup (removelast l).
Proof.
  induction l as [|a l IH]; intros H; [exact H|].
  destruct l as [|b l]; [constructor|].
  change (removelast (a :: b :: l)) with (a :: removelast (b :: l)).
  inversion H; subst. constructor; [|apply IH; assumption].
  intros Hin. apply In_removelast in Hin. contradiction.
Qed.

Lemma chain_removelast (l : list Point) : chain l -> chain (removelast l).
Proof.
  induction l as [|a l IH]; intros H; [exact H|].
  destruct l as [|b l]; [exact I|].
  change (removelast (a :: b :: l)) with (a :: removelast (b :: l)).
  destruct H as [Hn Hc]. specialize (IH Hc).
  destruct l as [|c l]; [exact I|].
  change (removelast (b :: c :: l)) with (b :: removelast (c :: l)) in *.
  split; assumption.
Qed.

Lemma wrap_head_in_grid (p : Point) : in_grid p = true -> fst (Game.wrap_head p) = p.
Proof.
  intros H. apply in_grid_bounds in H.
  rewrite wrap_head_mod by lia. destruct p as [px py]. cbn [x y] in *.
  rewrite !Z.mod_small by lia. reflexivity.
Qed.

(** The cells of [Snake(n)]: segment [k] is [k] columns left of the centre,
    on the centre row. *)
Lemma init_loop_nth (n : nat) (i : Z) (k : nat) :
  (k < n)%nat ->
  nth_error (Snake.init_loop n i) k = Some (mkPoint (20 - (i + Z.of_nat k)) 15).
Proof.
  revert i k. induction n as [|n IH]; intros i k Hk; [lia|].
  cbn [Snake.init_loop]. destruct k as [|k]; cbn [nth_error].
  - f_equal. f_equal. change (Z.quot GRID_WIDTH 2) with 20. lia.
  - rewrite IH by lia. f_equal. f_equal. lia.
Qed.

Ltac grid_values :=
  change (Z.quot GRID_WIDTH 2) with 20 in *;
  change (Z.quot GRID_HEIGHT 2) with 15 in *;
  unfold GRID_WIDTH, GRID_HEIGHT in *; cbn [x y fst snd] in *.

Lemma init_loop_shape (n : nat) (i : Z) :
  0 <= i -> i + Z.of_nat n <= 21 ->
  all_in_grid (Snake.init_loop n i) /\ NoDup (Snake.init_loop n i)
  /\ chain (Snake.init_loop n i).
Proof.
  revert i. induction n as [|n IH]; intros i Hi Hn; cbn [Snake.init_loop].
  - repeat split; constructor.
  - destruct (IH (i + 1)) as (Hg & Hd & Hc); [lia | lia |].
    assert (Hcell : in_grid (mkPoint (Z.quot GRID_WIDTH 2 - i) (Z.quot GRID_HEIGHT 2)) = true).
    { apply in_grid_bounds. grid_values. lia. }
    split; [constructor; assumption|]. split.
    + constructor; [|assumption]. intros Hin. apply init_loop_columns in Hin.
      grid_values. lia.
    + destruct n as [|m]; [exact I|]. cbn [Snake.init_loop chain] in *.
      split; [|exact Hc]. exists Right. rewrite wrap_head_in_grid.
      * unfold translate. cbn [unit_step]. grid_values. f_equal; lia.
      * apply in_grid_bounds. unfold translate. cbn [unit_step]. grid_values. lia.
Qed.

Lemma make_session_shape (n : Z) : 1 <= n <= 21 -> session_shape (Snake.make n).
Proof.
  intros Hn. destruct (init_loop_shape (Z.to_nat n) 0) as (Hg & Hd & Hc); [lia | lia |].
  split; cbn [Snake.make Snake.segments]; try assumption.
  destruct (Z.to_nat n) eqn:E; [lia | discriminate].
Qed.

Lemma game_over_records_length (g : Game.t) :
  Game.app_state (Game.game_over g) = GameOver /\
  Game.snake (Game.game_over g) = Game.snake g /\
  Snake.get_length (Game.snake (Game.game_over g)) <= Game.best_length (Game.game_over g).
Proof. cbn. repeat split. apply Z.le_max_r. Qed.

(** How a tick ends: on a collision by [game_over]; otherwise the state
    stays, the segments stay, and the head is on none of the cells behind. *)
Lemma settle_outcome (f : Frame) (head : Point) (body : list Point) (g : Game.t) :
  Snake.segments (Game.snake g) = head :: body ->
  (In head body /\ settle f head g = Game.game_over g)
  \/ (~ In head body
      /\ Game.app_state (settle f head g) = Game.app_state g
      /\ Snake.segments (Game.snake (settle f head g)) = head :: body).
Proof.
  intros Hs. unfold settle. rewrite Hs. cbn [tl].
  destruct (Snake.collision_loop head body) eqn:C.
  - left. split; [apply collision_loop_In; exact C | reflexivity].
  - right. split.
    + intros Hin. apply collision_loop_In in Hin. congruence.
    + destruct (same_cell _ _); cbn; auto.
Qed.

Lemma trailing_shape (s : Snake.t) :
  session_shape s ->
  all_in_grid (trailing s) /\ NoDup (trailing s) /\ chain (trailing s).
Proof.
  intros [_ Hg Hd Hc]. unfold trailing. destruct (Snake.grow_snake s).
  - auto.
  - split; [apply Forall_removelast; exact Hg|].
    split; [apply NoDup_removelast; exact Hd | apply chain_removelast; exact Hc].
Qed.

Lemma chain_ahead (p h : Point) (rest : list Point) (grow : bool) :
  neighbour p h ->
  chain (if grow then h :: rest else removelast (h :: rest)) ->
  chain (p :: (if grow then h :: rest else removelast (h :: rest))).
Proof.
  intros Hn Hc. destruct grow; [split; assumption|].
  destruct rest as [|r rest]; [exact I|].
  change (removelast (h :: r :: rest)) with (h :: removelast (r :: rest)) in *.
  split; assumption.
Qed.

(** A tick on a well-shaped snake either ends the session, with the length
    of the snake recorded, or leaves a well-shaped snake in the same state. *)
Lemma ticked_shape (f : Frame) (g : Game.t) (h : Point) (rest : list Point) :
  Snake.segments (Game.snake g) = h :: rest ->
  session_shape (Game.snake g) ->
  (Game.app_state (ticked f g h) = GameOver
   /\ Snake.get_length (Game.snake (ticked f g h)) <= Game.best_length (ticked f g h))
  \/ (Game.app_state (ticked f g h) = Game.app_state g
      /\ session_shape (Game.snake (ticked f g h))).
Proof.
  intros Hs Hshape.
  destruct (trailing_shape _ Hshape) as (Bg & Bd & Bc).
  assert (Hh : in_grid h = true).
  { destruct Hshape as [_ Hg _ _]. rewrite Hs in Hg. inversion Hg; assumption. }
  assert (Hfinish : forall (head : Point) (g2 : Game.t),
             Snake.segments (Game.snake g2) = head :: trailing (Game.snake g) ->
             Game.app_state g2 = Game.app_state g ->
             in_grid head = true ->
             neighbour head h ->
             (Game.app_state (settle f head g2) = GameOver
              /\ Snake.get_length (Game.snake (settle f head g2))
                 <= Game.best_length (settle f head g2))
             \/ (Game.app_state (settle f head g2) = Game.app_state g
                 /\ session_shape (Game.snake (settle f head g2)))).
  { intros head g2 Hs2 Hst2 Hin Hnb.
    destruct (settle_outcome f head _ g2 Hs2) as [[_ ->]|(Hfree & Est & Esegs)].
    - left. destruct (game_over_records_length g2) as (? & _ & ?). split; assumption.
    - right. split; [congruence|]. split; rewrite Esegs.
      + discriminate.
      + constructor; assumption.
      + constructor; assumption.
      + unfold trailing in *. rewrite Hs in *. apply chain_ahead; assumption. }
  unfold ticked. destruct (Game.wrapping_enabled g).
  - apply Hfinish; try reflexivity.
    + apply landing_in_grid. exact Hh.
    + eexists. reflexivity.
  - destruct (in_grid (translate _ h)) eqn:Hm.
    + apply Hfinish; try reflexivity; [exact Hm|].
      eexists. symmetry. apply wrap_head_in_grid. exact Hm.
    + left.
      match goal with |- context [Game.game_over ?g1] =>
        destruct (game_over_records_length g1) as (? & _ & ?) end.
      split; assumption.
Qed.

Lemma board_cells_complete (p : Point) : in_grid p = true -> In p board_cells.
Proof.
  intros H. apply in_grid_bounds in H. unfold board_cells.
  apply in_flat_map. exists (Z.to_nat (x p)). split.
  - apply in_seq. unfold GRID_WIDTH in *. lia.
  - apply in_map_iff. exists (Z.to_nat (y p)). split.
    + destruct p as [px py]. cbn [x y] in *. f_equal; lia.
    + apply in_seq. unfold GRID_HEIGHT in *. lia.
Qed.

(** Pairwise different cells of the board are at most 40 * 30. *)
Lemma board_bound (l : list Point) :
  NoDup l -> all_in_grid l -> (length l <= 1200)%nat.
Proof.
  intros Hd Hg.
  change 1200%nat with (length board_cells).
  apply NoDup_incl_length; [exact Hd|].
  intros p Hp. apply board_cells_complete.
  unfold all_in_grid in Hg. rewrite Forall_forall in Hg. apply Hg. exact Hp.
Qed.

(** What [neighbour] means in coordinates, for a cell of the board. *)
Lemma neighbour_coordinates (p q : Point) :
  in_grid q = true -> neighbour p q ->
  (y p = y q /\ (x p = (x q + 1) mod GRID_WIDTH \/ x p = (x q - 1) mod GRID_WIDTH))
  \/ (x p = x q /\ (y p = (y q + 1) mod GRID_HEIGHT \/ y p = (y q - 1) mod GRID_HEIGHT)).
Proof.
  intros Hq [d ->]. apply in_grid_bounds in Hq.
  pose proof (translate_one_axis d q) as Hax.
  rewrite wrap_head_mod by lia. cbn [x y].
  destruct d; unfold translate; cbn [unit_step fst snd x y];
    unfold GRID_WIDTH, GRID_HEIGHT in *.
  - right. rewrite Z.add_0_r, (Z.mod_small (x q)) by lia. split; [reflexivity|].
    right. f_equal.
  - right. rewrite Z.add_0_r, (Z.mod_small (x q)) by lia. split; [reflexivity|].
    left. reflexivity.
  - left. rewrite Z.add_0_r, (Z.mod_small (y q)) by lia. split; [reflexivity|].
    right. f_equal.
  - left. rewrite Z.add_0_r, (Z.mod_small (y q)) by lia. split; [reflexivity|].
    left. reflexivity.
Qed.

Lemma chain_nth (l : list Point) (k : nat) (p q : Point) :
  chain l -> nth_error l k = Some p -> nth_error l (S k) = Some q -> neighbour p q.
Proof.
  revert k. induction l as [|a l IH]; intros k Hc Hp Hq; [destruct k; discriminate|].
  destruct l as [|b l]; [destruct k; cbn in Hq; try discriminate; destruct k; discriminate|].
  destruct Hc as [Hn Hc]. destruct k as [|k].
  - cbn in Hp, Hq. congruence.
  - apply (IH k); assumption.
Qed.

Lemma rebind_keeps_bindings (action new_key : Z) (kb : KeyBindings.t) :
  Forall (fun keys : list Z => keys <> [] /\ (length keys <= 2)%nat) (bound_keys kb) ->
  Forall (fun keys : list Z => keys <> [] /\ (length keys <= 2)%nat)
         (bound_keys (Game.rebind action new_key kb)).
Proof.
  destruct kb as [p r u d l rt]. unfold bound_keys, Game.rebind. cbn.
  intros H.
  repeat match goal with
         | H : Forall _ (_ :: _) |- _ => inversion H; clear H; subst
         end.
  assert (Hnew : [new_key] <> [] /\ (length [new_key] <= 2)%nat)
    by (split; [discriminate | cbn; lia]).
  repeat match goal with
         | |- context [if ?b then _ else _] => destruct b
         end; cbn; repeat (apply Forall_cons; [assumption|]); apply Forall_nil.
Qed.

Lemma find_entry_range (P : Z -> bool) (i : Z) :
  find P [0; 1; 2; 3; 4; 5] = Some i -> 0 <= i <= 5.
Proof.
  intros H. apply find_some in H. destruct H as [H _]. cbn in H.
  repeat destruct H as [H|H]; try lia; contradiction.
Qed.

Section MoreGameProperties.

Variable tpm : Z.

Ltac case_ifs :=
  repeat match goal with
         | |- context [if ?b then _ else _] =>
             match type of b with
             | bool => destruct b eqn:?
             | sumbool _ _ => destruct b
             end
         end.

Lemma well_formed_make (f : Frame) : well_formed (Game.make f).
Proof.
  split; cbn; try lia; try discriminate; try reflexivity.
  - apply invariant_make.
  - repeat constructor; try discriminate; cbn; lia.
Qed.

Ltac finish_well_formed E Hprev Htick Hdur Hkeys Hedit Hsess Hover :=
  unfold in_session in *;
  try rewrite E in Hsess; try rewrite E in Hover; try rewrite E; cbn in *;
  try rewrite E in Hsess; try rewrite E in Hover; try rewrite E; cbn in *;
  refine (conj _ (conj _ (conj _ (conj _ (conj _ _)))));
  [ first [exact Htick | apply clamp_range; lia]
  | exact Hdur
  | first [exact Hkeys | apply rebind_keeps_bindings; exact Hkeys]
  | first [exact Hedit | lia]
  | destruct Hprev as [Hprev|Hprev]; rewrite ?Hprev in *; cbn in *;
    try rewrite E in Hsess; try rewrite E; cbn in *;
    try discriminate; try congruence;
    first [exact Hsess | intros _; apply Hsess; reflexivity
          | intros _; apply make_session_shape; lia | idtac]
  | destruct Hprev as [Hprev|Hprev]; rewrite ?Hprev in *; cbn in *;
    try rewrite E in Hover; try rewrite E; cbn in *;
    try discriminate; try congruence;
    first [exact Hover | intros _; apply Hover; reflexivity | idtac] ].

Lemma well_formed_off_board (f : Frame) (g g' : Game.t) :
  well_formed g -> Game.app_state g <> Playing ->
  Game.update tpm f g = Some g' ->
  (50 <= Game.tick_rate_ms g' <= 500)
  /\ Game.countdown_duration_ms g' = 3000
  /\ Forall (fun keys : list Z => keys <> [] /\ (length keys <= 2)%nat)
            (bound_keys (Game.key_bindings g'))
  /\ -1 <= Game.current_edit_action g' <= 5
  /\ (in_session g' = true -> session_shape (Game.snake g'))
  /\ (Game.app_state g' = GameOver ->
      Snake.get_length (Game.snake g') <= Game.best_length g').
Proof.
  intros [[Hlen Hprev Hhead] Htick Hdur Hkeys Hedit Hsess Hover] Hst. unfold Game.update.
  destruct (Game.app_state g) eqn:E; try congruence; clear Hst;
    intros H; injection H as <-.
  - unfold Game.update_start_menu, Game.is_mouse_in_rect.
    case_ifs; finish_well_formed E Hprev Htick Hdur Hkeys Hedit Hsess Hover.
  - unfold Game.update_settings, Game.is_mouse_in_rect.
    case_ifs; finish_well_formed E Hprev Htick Hdur Hkeys Hedit Hsess Hover.
  - unfold Game.update_keybinds, Game.is_mouse_in_rect.
    destruct (find _ _) eqn:F; [apply find_entry_range in F|];
      case_ifs; finish_well_formed E Hprev Htick Hdur Hkeys Hedit Hsess Hover.
  - unfold Game.update_countdown. case_ifs; finish_well_formed E Hprev Htick Hdur Hkeys Hedit Hsess Hover.
  - unfold Game.update_pause, Game.is_mouse_in_rect.
    case_ifs; finish_well_formed E Hprev Htick Hdur Hkeys Hedit Hsess Hover.
  - unfold Game.update_confirm_restart, Game.is_mouse_in_rect.
    case_ifs; finish_well_formed E Hprev Htick Hdur Hkeys Hedit Hsess Hover.
  - unfold Game.update_confirm_main_menu, Game.is_mouse_in_rect.
    case_ifs; finish_well_formed E Hprev Htick Hdur Hkeys Hedit Hsess Hover.
  - unfold Game.update_game_over. case_ifs; finish_well_formed E Hprev Htick Hdur Hkeys Hedit Hsess Hover.
Qed.

Lemma session_shape_segments (s s' : Snake.t) :
  Snake.segments s' = Snake.segments s -> session_shape s -> session_shape s'.
Proof. intros E [H1 H2 H3 H4]. split; rewrite E; assumption. Qed.

(** A tick leaves the settings, the key bindings and the edit mode alone. *)
Lemma ticked_settings (f : Frame) (g : Game.t) (h : Point) :
  Game.tick_rate_ms (ticked f g h) = Game.tick_rate_ms g /\
  Game.countdown_duration_ms (ticked f g h) = Game.countdown_duration_ms g /\
  Game.key_bindings (ticked f g h) = Game.key_bindings g /\
  Game.current_edit_action (ticked f g h) = Game.current_edit_action g /\
  Game.initial_snake_length (ticked f g h) = Game.initial_snake_length g /\
  Game.wrapping_enabled (ticked f g h) = Game.wrapping_enabled g.
Proof.
  unfold ticked, settle. cbv zeta.
  destruct (Game.wrapping_enabled g) eqn:W; [|destruct (in_grid _)];
    repeat match goal with
           | |- context [if ?b then _ else _] => destruct b
           end; cbn; repeat split; exact W.
Qed.

Lemma well_formed_update (f : Frame) (g : Game.t) :
  well_formed g ->
  exists g' : Game.t, Game.update tpm f g = Some g' /\ well_formed g'.
Proof.
  intros W.
  destruct (invariant_update tpm f g (wf_invariant g W)) as (g' & Hup & Hinv').
  exists g'. split; [exact Hup|].
  destruct (GameState_eq_dec (Game.app_state g) Playing) as [Hst|Hst].
  2:{ destruct (well_formed_off_board f g g' W Hst Hup) as (? & ? & ? & ? & ? & ?).
      split; assumption. }
  destruct W as [_ Htick Hdur Hkeys Hedit Hsess Hover].
  assert (Hshape : session_shape (Game.snake g))
    by (apply Hsess; unfold in_session; rewrite Hst; reflexivity).
  destruct (Snake.segments (Game.snake g)) as [|h rest] eqn:Hs;
    [destruct Hshape as [N _ _ _]; congruence|].
  assert (Hh : steppable h).
  { apply in_grid_steppable. destruct Hshape as [_ G _ _]. rewrite Hs in G.
    inversion G; assumption. }
  rewrite (update_playing_closed tpm f g h rest Hst Hs Hh) in Hup.
  injection Hup as <-.
  destruct (sample_movement_frame f g) as (s & Hg1 & Hsegs & _).
  assert (Hshape1 : session_shape (Game.snake (Game.sample_movement f g))).
  { rewrite Hg1. cbn. apply (session_shape_segments (Game.snake g)); assumption. }
  destruct (Game.is_action_pressed f _).
  - split; cbn; try assumption; try discriminate. intros _. exact Hshape.
  - destruct (Game.tick_due tpm f g).
    + destruct (ticked_settings f (Game.sample_movement f g) h)
        as (E1 & E2 & E3 & E4 & _).
      assert (Hs1 : Snake.segments (Game.snake (Game.sample_movement f g)) = h :: rest)
        by (rewrite Hg1; cbn; congruence).
      split; [exact Hinv' | rewrite E1 | rewrite E2 | rewrite E3 | rewrite E4 | |];
        try (rewrite Hg1; cbn; assumption).
      * intros Hin.
        destruct (ticked_shape f _ h rest Hs1 Hshape1) as [[Eover _]|[_ Sh]];
          [|exact Sh].
        unfold in_session in Hin. rewrite Eover in Hin. discriminate.
      * intros Eover.
        destruct (ticked_shape f _ h rest Hs1 Hshape1) as [[_ Hbest]|[Est _]];
          [exact Hbest|].
        rewrite Est, Hg1 in Eover. cbn in Eover. congruence.
    + rewrite Hg1 in *. split; cbn in *; try assumption.
      * intros _. exact Hshape1.
      * intros Eover. congruence.
Qed.

(** No run of the process reaches undefined behaviour, and all its states
    are well formed. *)
Lemma well_formed_run (frames : list Frame) (g : Game.t) :
  well_formed g ->
  exists g' : Game.t, Game.run tpm frames g = Some g' /\ well_formed g'.
Proof.
  revert g. induction frames as [|f frames IH]; intros g W; cbn [Game.run].
  - exists g. split; [reflexivity | exact W].
  - destruct (well_formed_update f g W) as (g1 & -> & W1). cbn [bind].
    apply IH. exact W1.
Qed.

(** X1.  In every state of a run the initial snake length is between 1 and
    10 and the tick interval between 50 and 500 ms, whatever the sliders
    report; the countdown lasts 3000 ms. *)
Theorem settings_stay_in_range (f0 : Frame) (frames : list Frame) :
  exists g : Game.t,
    Game.run tpm frames (Game.make f0) = Some g /\
    1 <= Game.initial_snake_length g <= 10 /\
    50 <= Game.tick_rate_ms g <= 500 /\
    Game.countdown_duration_ms g = 3000.
Proof.
  destruct (well_formed_run frames _ (well_formed_make f0)) as (g & Hrun & W).
  exists g. split; [exact Hrun|].
  destruct W as [[Hlen _ _] Htick Hdur _ _ _ _]. auto.
Qed.

(** X2.  While a session is under way (Playing, Pause, the two confirmation
    dialogs, and Settings or Keybinds opened from Pause) the snake has a
    head, all its cells are on the board and no two are the same cell; so it
    has at most 1200 segments and [get_length] is their exact number. *)
Theorem snake_on_board_without_overlap (f0 : Frame) (frames : list Frame) :
  exists g : Game.t,
    Game.run tpm frames (Game.make f0) = Some g /\
    (in_session g = true ->
     Snake.segments (Game.snake g) <> [] /\
     all_in_grid (Snake.segments (Game.snake g)) /\
     NoDup (Snake.segments (Game.snake g)) /\
     (length (Snake.segments (Game.snake g)) <= 1200)%nat /\
     Snake.get_length (Game.snake g)
     = Z.of_nat (length (Snake.segments (Game.snake g)))).
Proof.
  destruct (well_formed_run frames _ (well_formed_make f0)) as (g & Hrun & W).
  exists g. split; [exact Hrun|]. intros Hin.
  destruct (wf_session g W Hin) as [Hne Hg Hd _].
  pose proof (board_bound _ Hd Hg) as Hb.
  repeat split; try assumption.
  apply get_length_exact. unfold INT_MAX. lia.
Qed.

(** X3.  While a session is under way, each segment of the snake is next to
    the one behind it on the board with its edges joined: same row and
    columns one apart modulo [GRID_WIDTH], or same column and rows one apart
    modulo [GRID_HEIGHT]. *)
Theorem snake_cells_adjacent (f0 : Frame) (frames : list Frame) :
  exists g : Game.t,
    Game.run tpm frames (Game.make f0) = Some g /\
    (in_session g = true ->
     forall (k : nat) (p q : Point),
       nth_error (Snake.segments (Game.snake g)) k = Some p ->
       nth_error (Snake.segments (Game.snake g)) (S k) = Some q ->
       (y p = y q /\
        (x p = (x q + 1) mod GRID_WIDTH \/ x p = (x q - 1) mod GRID_WIDTH))
       \/ (x p = x q /\
           (y p = (y q + 1) mod GRID_HEIGHT \/ y p = (y q - 1) mod GRID_HEIGHT))).
Proof.
  destruct (well_formed_run frames _ (well_formed_make f0)) as (g & Hrun & W).
  exists g. split; [exact Hrun|]. intros Hin k p q Hp Hq.
  destruct (wf_session g W Hin) as [_ Hg _ Hc].
  apply neighbour_coordinates; [|eapply chain_nth; eassumption].
  unfold all_in_grid in Hg. rewrite Forall_forall in Hg.
  apply Hg. apply (nth_error_In _ (S k)). exact Hq.
Qed.

(** One frame follows an arrow of the state machine. *)
Lemma update_allowed (f : Frame) (g g' : Game.t) :
  well_formed g ->
  Game.update tpm f g = Some g' ->
  allowed (Game.app_state g) (Game.app_state g') = true /\
  (Game.app_state g = Settings ->
   Game.app_state g' = Settings \/ Game.app_state g' = Keybinds
   \/ Game.app_state g' = Game.previous_state g).
Proof.
  intros W Hup.
  destruct (GameState_eq_dec (Game.app_state g) Playing) as [Hst|Hst].
  - split; [|congruence].
    destruct W as [_ _ _ _ _ Hsess _].
    assert (Hshape : session_shape (Game.snake g))
      by (apply Hsess; unfold in_session; rewrite Hst; reflexivity).
    destruct (Snake.segments (Game.snake g)) as [|h rest] eqn:Hs;
      [destruct Hshape as [N _ _ _]; congruence|].
    assert (Hh : steppable h).
    { apply in_grid_steppable. destruct Hshape as [_ G _ _]. rewrite Hs in G.
      inversion G; assumption. }
    rewrite (update_playing_closed tpm f g h rest Hst Hs Hh) in Hup.
    injection Hup as <-. rewrite Hst.
    destruct (sample_movement_frame f g) as (s & Hg1 & Hsegs & _).
    destruct (Game.is_action_pressed f _); [reflexivity|].
    destruct (Game.tick_due tpm f g); [|rewrite Hg1; cbn; rewrite Hst; reflexivity].
    assert (Hs1 : Snake.segments (Game.snake (Game.sample_movement f g)) = h :: rest)
      by (rewrite Hg1; cbn; congruence).
    assert (Hshape1 : session_shape (Game.snake (Game.sample_movement f g)))
      by (rewrite Hg1; cbn; apply (session_shape_segments (Game.snake g)); assumption).
    destruct (ticked_shape f _ h rest Hs1 Hshape1) as [[-> _]|[-> _]];
      [reflexivity|]. rewrite Hg1. cbn. rewrite Hst. reflexivity.
  - destruct W as [[_ Hprev _] _ _ _ _ _ _].
    revert Hup. unfold Game.update.
    destruct (Game.app_state g) eqn:E; try congruence;
      intros H; injection H as <-.
    + unfold Game.update_start_menu. case_ifs; cbn; rewrite ?E; split; auto; discriminate.
    + unfold Game.update_settings. case_ifs; cbn; rewrite ?E;
        (split; [destruct Hprev as [Hp|Hp]; rewrite ?Hp; reflexivity | auto]).
    + unfold Game.update_keybinds. destruct (find _ _); case_ifs; cbn; rewrite ?E;
        split; auto; discriminate.
    + unfold Game.update_countdown. case_ifs; cbn; rewrite ?E; split; auto; discriminate.
    + unfold Game.update_pause. case_ifs; cbn; rewrite ?E; split; auto; discriminate.
    + unfold Game.update_confirm_restart. case_ifs; cbn; rewrite ?E;
        split; auto; discriminate.
    + unfold Game.update_confirm_main_menu. case_ifs; cbn; rewrite ?E;
        split; auto; discriminate.
    + unfold Game.update_game_over. case_ifs; cbn; rewrite ?E; split; auto; discriminate.
Qed.

(** X4.  Every frame of a run follows an arrow of the state machine:
    StartMenu to Countdown or Settings; Settings to Keybinds or back to the
    state that opened it, which is StartMenu or Pause; Keybinds to Settings;
    Countdown to Playing; Playing to Pause or GameOver; Pause to Playing,
    Settings, ConfirmRestart or ConfirmMainMenu; ConfirmRestart to Playing
    or Pause; ConfirmMainMenu to StartMenu or Pause; GameOver to StartMenu;
    or it stays in its state. *)
Theorem transitions_follow_table (f0 : Frame) (frames : list Frame) (f : Frame) :
  exists g g' : Game.t,
    Game.run tpm frames (Game.make f0) = Some g /\
    Game.update tpm f g = Some g' /\
    allowed (Game.app_state g) (Game.app_state g') = true /\
    (Game.previous_state g = StartMenu \/ Game.previous_state g = Pause) /\
    (Game.app_state g = Settings ->
     Game.app_state g' = Settings \/ Game.app_state g' = Keybinds
     \/ Game.app_state g' = Game.previous_state g).
Proof.
  destruct (well_formed_run frames _ (well_formed_make f0)) as (g & Hrun & W).
  destruct (well_formed_update f g W) as (g' & Hup & _).
  exists g, g'. split; [exact Hrun|]. split; [exact Hup|].
  destruct (update_allowed f g g' W Hup) as [Ha Hs].
  split; [exact Ha|]. split; [|exact Hs].
  destruct W as [[_ Hprev _] _ _ _ _ _ _]. exact Hprev.
Qed.

(** X8.  In every state of a run each of the six actions is bound to one or
    two keys, so every row of the keybind screen has a key to name, and the
    action being edited is none (-1) or one of the rows 0 to 5. *)
Theorem bindings_never_empty (f0 : Frame) (frames : list Frame) :
  exists g : Game.t,
    Game.run tpm frames (Game.make f0) = Some g /\
    Forall (fun keys : list Z => keys <> [] /\ (length keys <= 2)%nat)
           (bound_keys (Game.key_bindings g)) /\
    -1 <= Game.current_edit_action g <= 5 /\
    (forall i : Z,
        exists key : Z,
          Draw.entry_key i (Game.key_bindings g) = Some key /\
          Draw.entry_label i (Game.key_bindings g)
          = Some (Draw.key_code_to_string key)).
Proof.
  destruct (well_formed_run frames _ (well_formed_make f0)) as (g & Hrun & W).
  exists g. split; [exact Hrun|].
  destruct W as [_ _ _ Hkeys Hedit _ _].
  split; [exact Hkeys|]. split; [exact Hedit|].
  intros i.
  assert (Hkey : exists key, Draw.entry_key i (Game.key_bindings g) = Some key).
  { unfold Draw.entry_key, bound_keys in *.
    repeat match goal with
           | H : Forall _ (_ :: _) |- _ => inversion H; clear H; subst
           end.
    repeat match goal with
           | H : ?l <> [] /\ _ |- _ => destruct H as [H _]
           end.
    repeat match goal with
           | |- context [if ?b then _ else _] => destruct b
           end;
      try (eexists; reflexivity);
      match goal with
      | |- exists _, hd_error ?l = _ => destruct l; [congruence | eexists; reflexivity]
      end. }
  destruct Hkey as [key Hkey]. exists key. split; [exact Hkey|].
  unfold Draw.entry_label. rewrite Hkey. reflexivity.
Qed.

(** X5.  A frame outside the Playing state either leaves the snake, the
    food, the time of the last tick and the best length as they are, or it
    starts a session: from Countdown or ConfirmRestart into Playing, with the
    snake built by [Snake(initial_snake_length)], a fresh food position and
    the clock reading as time of the last tick. *)
Theorem session_kept_or_fresh (f : Frame) (g g' : Game.t) :
  Game.app_state g <> Playing ->
  Game.update tpm f g = Some g' ->
  (Game.snake g' = Game.snake g /\ Game.food g' = Game.food g
   /\ Game.last_move_time g' = Game.last_move_time g
   /\ Game.best_length g' = Game.best_length g)
  \/ (Game.app_state g' = Playing
      /\ ((Game.app_state g = Countdown /\ Game.last_move_time g' = now_again f)
          \/ (Game.app_state g = ConfirmRestart /\ Game.last_move_time g' = now f))
      /\ Game.snake g' = Snake.make (Game.initial_snake_length g)
      /\ Game.food g' = Food.mk (mkPoint (dist_x f) (dist_y f))
      /\ Game.best_length g' = Game.best_length g).
Proof.
  intros Hst. unfold Game.update.
  destruct (Game.app_state g) eqn:E; try congruence; clear Hst;
    intros H; injection H as <-.
  - unfold Game.update_start_menu. case_ifs; left; repeat split.
  - unfold Game.update_settings. case_ifs; left; repeat split.
  - unfold Game.update_keybinds. destruct (find _ _); case_ifs; left; repeat split.
  - unfold Game.update_countdown. case_ifs; [right | left; repeat split].
    cbn. split; [reflexivity|]. split; [left; split; reflexivity|]. repeat split.
  - unfold Game.update_pause. case_ifs; left; repeat split.
  - unfold Game.update_confirm_restart. case_ifs; try (left; repeat split; fail).
    right. cbn. split; [reflexivity|]. split; [right; split; reflexivity|]. repeat split.
  - unfold Game.update_confirm_main_menu. case_ifs; left; repeat split.
  - unfold Game.update_game_over. case_ifs; left; repeat split.
Qed.

Lemma to_int_small (z : Z) : INT_MIN <= z <= INT_MAX -> to_int z = z.
Proof.
  unfold to_int, INT_MIN, INT_MAX. intros H. rewrite Z.mod_small by lia. lia.
Qed.

(** X6.  With a clock resolution of [tpm > 0] periods per millisecond and
    less than [2^31] ms since the countdown started, the frame leaves the
    Countdown state exactly when at least 3000 ms have passed, and changes
    nothing before that. *)
Theorem countdown_ends_at_duration (f : Frame) (g : Game.t) :
  Game.app_state g = Countdown ->
  Game.countdown_duration_ms g = 3000 ->
  0 < tpm ->
  0 <= now f - Game.countdown_start_time g < 2147483648 * tpm ->
  exists g' : Game.t,
    Game.update tpm f g = Some g' /\
    (Game.app_state g' = Playing <->
     3000 * tpm <= now f - Game.countdown_start_time g) /\
    (Game.app_state g' <> Playing -> g' = g).
Proof.
  intros Hst Hdur Htpm Hrange. unfold Game.update. rewrite Hst.
  eexists. split; [reflexivity|].
  unfold Game.update_countdown, Game.to_ms. rewrite Hdur.
  set (d := now f - Game.countdown_start_time g) in *.
  rewrite Z.quot_div_nonneg by lia.
  assert (Hq : 0 <= d / tpm < 2147483648).
  { split; [apply Z.div_pos; lia | apply Z.div_lt_upper_bound; lia]. }
  rewrite to_int_small by (unfold INT_MIN, INT_MAX; lia).
  rewrite Z.geb_leb.
  destruct (Z.leb_spec 3000 (d / tpm)) as [Hge|Hlt].
  - split; [|cbn; congruence]. split; [intros _|reflexivity].
    pose proof (Z.mul_div_le d tpm Htpm). nia.
  - split; [|reflexivity]. rewrite Hst. split; [discriminate|].
    intros Hd. exfalso.
    assert (3000 <= d / tpm) by (apply Z.div_le_lower_bound; lia). lia.
Qed.

(** X7.  [Snake(n)] has [n] segments, none when [n <= 0]; segment [k] lies
    [k] columns left of the centre cell (20, 15); the snake heads right with
    no growth pending.  An empty snake cannot be updated; for [n] from 1 to
    21 the snake lies on the board without overlap, and from 22 on its tail
    is off the board. *)
Theorem make_layout (n : Z) :
  length (Snake.segments (Snake.make n)) = Z.to_nat n /\
  (forall k : nat,
      (k < Z.to_nat n)%nat ->
      nth_error (Snake.segments (Snake.make n)) k
      = Some (mkPoint (20 - Z.of_nat k) 15)) /\
  Snake.current_direction (Snake.make n) = Right /\
  Snake.grow_snake (Snake.make n) = false /\
  (n <= 0 -> Snake.segments (Snake.make n) = []
             /\ Snake.update (Snake.make n) = None
             /\ Snake.has_self_collision (Snake.make n) = None) /\
  (1 <= n <= 21 -> session_shape (Snake.make n)) /\
  (22 <= n -> ~ all_in_grid (Snake.segments (Snake.make n))).
Proof.
  unfold Snake.make. cbn [Snake.segments Snake.current_direction Snake.grow_snake].
  split; [apply init_loop_length|].
  split; [intros k Hk; rewrite init_loop_nth by exact Hk; reflexivity|].
  split; [reflexivity|]. split; [reflexivity|].
  split.
  { intros Hn. replace (Z.to_nat n) with 0%nat by lia. repeat split. }
  split; [apply make_session_shape|].
  intros Hn Hall. unfold all_in_grid in Hall. rewrite Forall_forall in Hall.
  assert (Hk : (21 < Z.to_nat n)%nat) by lia.
  pose proof (init_loop_nth (Z.to_nat n) 0 21 Hk) as Hnth.
  apply nth_error_In, Hall in Hnth. discriminate Hnth.
Qed.

(** The number of segments after a frame of the Playing state. *)
Lemma playing_frame_length
    (f : Frame) (g : Game.t) (h : Point) (rest : list Point) :
  Game.app_state g = Playing ->
  Snake.segments (Game.snake g) = h :: rest ->
  steppable h ->
  exists g' : Game.t,
    Game.update tpm f g = Some g' /\
    length (Snake.segments (Game.snake g'))
    = if runs_tick tpm f g && Snake.grow_snake (Game.snake g)
      then S (length (Snake.segments (Game.snake g)))
      else length (Snake.segments (Game.snake g)).
Proof.
  intros Hst Hs Hh. eexists.
  split; [apply (update_playing_closed tpm f g h rest Hst Hs Hh)|].
  unfold runs_tick.
  destruct (sample_movement_frame f g) as (s & Hg1 & Hsegs & Hgrow).
  destruct (Game.is_action_pressed f _); cbn [negb andb]; [reflexivity|].
  destruct (Game.tick_due tpm f g); cbn [andb].
  - destruct (ticked_frame f (Game.sample_movement f g) h) as (-> & _ & _).
    rewrite Hg1. cbn [Game.snake Game.set_snake length]. unfold trailing.
    rewrite Hgrow, Hsegs, Hs.
    destruct (Snake.grow_snake (Game.snake g)); [reflexivity|].
    rewrite removelast_cons_length. reflexivity.
  - rewrite Hg1. cbn. rewrite Hsegs. reflexivity.
Qed.

(** C7.  [best_length] is 0 when the game is constructed.  Along any run of
    the process, which never reaches undefined behaviour, a frame changes
    [best_length] only if it goes from Playing to GameOver; every frame
    that enters GameOver sets it to the maximum of its old value and the
    number of segments of the final snake, which is what [get_length]
    returns for that snake; and it never decreases, frame by frame and over
    any continuation of the run, whatever the lengths of the snakes of later
    sessions. *)
Theorem best_length_high_water_mark (f0 : Frame) (frames : list Frame) :
  Game.best_length (Game.make f0) = 0 /\
  exists g : Game.t,
    Game.run tpm frames (Game.make f0) = Some g /\
    0 <= Game.best_length g /\
    (forall f : Frame,
        exists g' : Game.t,
          Game.update tpm f g = Some g' /\
          Game.best_length g <= Game.best_length g' /\
          (Game.best_length g' <> Game.best_length g ->
           Game.app_state g = Playing /\ Game.app_state g' = GameOver) /\
          (Game.app_state g <> GameOver ->
           Game.app_state g' = GameOver ->
           Game.best_length g'
           = Z.max (Game.best_length g) (Snake.get_length (Game.snake g')) /\
           Snake.get_length (Game.snake g')
           = Z.of_nat (length (Snake.segments (Game.snake g'))) /\
           Game.best_length g'
           = Z.max (Game.best_length g)
                   (Z.of_nat (length (Snake.segments (Game.snake g')))) /\
           (1 <= length (Snake.segments (Game.snake g')) <= 1201)%nat)) /\
    (forall (more : list Frame) (g2 : Game.t),
        Game.run tpm more g = Some g2 ->
        Game.best_length g <= Game.best_length g2).
Proof.
  split; [reflexivity|].
  destruct (well_formed_run frames (Game.make f0) (well_formed_make f0))
    as (g & Hrun & W).
  pose proof (wf_invariant g W) as Hinv.
  exists g. split; [exact Hrun|].
  split; [apply (best_length_monotone_run tpm) in Hrun; exact Hrun|].
  split; [|intros more g2; apply best_length_monotone_run].
  intros f. destruct (invariant_update tpm f g Hinv) as (g' & Hup & _).
  exists g'. split; [exact Hup|].
  pose proof (best_length_update tpm f g g' Hup) as Hbest.
  split; [destruct Hbest as [[E _]|(_ & _ & E)]; lia|].
  split; [intros Hne; destruct Hbest as [[E _]|(? & ? & _)]; [congruence | auto]|].
  intros Hfrom Hinto.
  pose proof (game_over_entered_from_playing tpm f g g' Hinv Hup Hfrom Hinto) as Hst.
  assert (Hmax : Game.best_length g'
                 = Z.max (Game.best_length g) (Snake.get_length (Game.snake g'))).
  { destruct Hbest as [[_ N]|(_ & _ & E)]; [|exact E]. exfalso. exact (N Hst Hinto). }
  (* the snake [game_over] measured: one step on from a snake of the board *)
  assert (Hshape : session_shape (Game.snake g))
    by (apply (wf_session g W); unfold in_session; rewrite Hst; reflexivity).
  destruct Hshape as [Hne Hgrid Hdup _].
  pose proof (board_bound _ Hdup Hgrid) as Hbound.
  destruct (Snake.segments (Game.snake g)) as [|h rest] eqn:Hs; [congruence|].
  assert (Hh : steppable h)
    by (apply in_grid_steppable; inversion Hgrid; assumption).
  destruct (playing_frame_length f g h rest Hst Hs Hh) as (g'' & Hup' & Hlen).
  rewrite Hup in Hup'. injection Hup' as <-.
  assert (Hcount : (1 <= length (Snake.segments (Game.snake g')) <= 1201)%nat).
  { rewrite Hlen, Hs in *. cbn [length] in *.
    destruct (runs_tick tpm f g && Snake.grow_snake (Game.snake g)); lia. }
  assert (Hexact : Snake.get_length (Game.snake g')
                   = Z.of_nat (length (Snake.segments (Game.snake g')))).
  { apply get_length_exact. unfold INT_MAX. lia. }
  split; [exact Hmax|]. split; [exact Hexact|].
  split; [rewrite <- Hexact; exact Hmax | exact Hcount].
Qed.

(** X13.  On a frame in the Playing state the snake never gets shorter; it
    gets longer, by one segment, exactly when the frame runs a tick while
    growth is pending. *)
Theorem length_changes_by_growth_only
    (f : Frame) (g : Game.t) (h : Point) (rest : list Point) :
  Game.app_state g = Playing ->
  Snake.segments (Game.snake g) = h :: rest ->
  steppable h ->
  exists g' : Game.t,
    Game.update tpm f g = Some g' /\
    (length (Snake.segments (Game.snake g)) <= length (Snake.segments (Game.snake g')))%nat /\
    (length (Snake.segments (Game.snake g')) <= S (length (Snake.segments (Game.snake g))))%nat /\
    (length (Snake.segments (Game.snake g')) = S (length (Snake.segments (Game.snake g)))
     <-> runs_tick tpm f g = true /\ Snake.grow_snake (Game.snake g) = true).
Proof.
  intros Hst Hs Hh.
  destruct (playing_frame_length f g h rest Hst Hs Hh) as (g' & Hup & Hlen).
  exists g'. split; [exact Hup|]. rewrite Hlen.
  destruct (runs_tick tpm f g), (Snake.grow_snake (Game.snake g)); cbn [andb];
    repeat split; try lia; try (intros [? ?]; discriminate); intros; lia.
Qed.

(** X15.  Pausing and resuming is a round trip: a frame with the pause
    action newly pressed followed by a frame with the resume action newly
    pressed, without a click on the Settings button, gives back the very
    state the game was in, the time of the last tick included. *)
Theorem pause_resume_round_trip (f1 f2 : Frame) (g : Game.t) :
  Game.app_state g = Playing ->
  Game.is_action_pressed f1 (KeyBindings.pause (Game.key_bindings g)) = true ->
  Game.is_action_pressed f2 (KeyBindings.resume (Game.key_bindings g)) = true ->
  IsMouseButtonPressed f2 = false \/ mouse_in_rect f2 (Game.pause_button 1) = false ->
  Game.run tpm [f1; f2] g = Some g.
Proof.
  intros Hst Hp Hr Hclick. cbn [Game.run].
  rewrite (update_when_playing tpm f1 g Hst). unfold Game.update_playing.
  rewrite Hp. cbn [bind].
  rewrite update_when_pause by reflexivity. cbn [bind]. f_equal.
  assert (Hback : Game.set_app_state Playing g = g).
  { destruct g. cbn in Hst. subst. reflexivity. }
  unfold Game.update_pause, Game.is_mouse_in_rect.
  destruct Hclick as [Hc|Hc]; rewrite Hc; case_ifs;
    cbn [Game.key_bindings Game.set_app_state Game.set_previous_state] in *;
    try congruence; exact Hback.
Qed.

(** X10.  Eating defers the growth by one tick.  When a tick puts the head,
    on the board and on none of its own cells, onto the food cell, the frame
    stays in Playing, the snake keeps its length with growth now pending, and
    the food moves to the freshly drawn cell; the next tick then puts a new
    head in front of all those segments, so the snake is one longer. *)
Theorem eating_grows_next_tick
    (f1 f2 : Frame) (g : Game.t) (h : Point) (rest : list Point) :
  Game.app_state g = Playing ->
  Snake.segments (Game.snake g) = h :: rest ->
  steppable h ->
  runs_tick tpm f1 g = true ->
  let landed :=
    landing (Game.wrapping_enabled g)
      (translate (Snake.current_direction (Game.snake (Game.sample_movement f1 g))) h) in
  in_grid landed = true ->
  ~ In landed (trailing (Game.snake g)) ->
  landed = Food.position (Game.food g) ->
  exists g1 : Game.t,
    Game.update tpm f1 g = Some g1 /\
    Game.app_state g1 = Playing /\
    Snake.segments (Game.snake g1) = landed :: trailing (Game.snake g) /\
    Snake.grow_snake (Game.snake g1) = true /\
    Game.food g1 = Food.mk (mkPoint (dist_x f1) (dist_y f1)) /\
    (runs_tick tpm f2 g1 = true ->
     exists (g2 : Game.t) (new_head : Point),
       Game.update tpm f2 g1 = Some g2 /\
       Snake.segments (Game.snake g2) = new_head :: landed :: trailing (Game.snake g) /\
       length (Snake.segments (Game.snake g2))
       = S (length (Snake.segments (Game.snake g1)))).
Proof.
  intros Hst Hs Hh Hrun landed Hin Hfree Hfood.
  unfold runs_tick in Hrun. apply andb_true_iff in Hrun. destruct Hrun as [Hp Hd].
  apply negb_true_iff in Hp.
  pose proof (update_playing_closed tpm f1 g h rest Hst Hs Hh) as Hup.
  rewrite Hp, Hd in Hup.
  destruct (sample_movement_frame f1 g) as (s & Hg1 & Hsegs & Hgrow).
  assert (Htrail : trailing (Game.snake (Game.sample_movement f1 g))
                   = trailing (Game.snake g)).
  { rewrite Hg1. cbn. unfold trailing. rewrite Hsegs, Hgrow. reflexivity. }
  assert (Hwrap : Game.wrapping_enabled (Game.sample_movement f1 g)
                  = Game.wrapping_enabled g) by (rewrite Hg1; reflexivity).
  assert (Hfood1 : Game.food (Game.sample_movement f1 g) = Game.food g)
    by (rewrite Hg1; reflexivity).
  assert (Hst1 : Game.app_state (Game.sample_movement f1 g) = Playing)
    by (rewrite Hg1; exact Hst).
  set (g0 := Game.sample_movement f1 g) in *.
  set (d := Snake.current_direction (Game.snake g0)) in *.
  assert (Hshape :
            Game.app_state (ticked f1 g0 h) = Playing /\
            Snake.segments (Game.snake (ticked f1 g0 h)) = landed :: trailing (Game.snake g) /\
            Snake.grow_snake (Game.snake (ticked f1 g0 h)) = true /\
            Game.food (ticked f1 g0 h) = Food.mk (mkPoint (dist_x f1) (dist_y f1))).
  { assert (Hsettle : forall g2 : Game.t,
               Snake.segments (Game.snake g2) = landed :: trailing (Game.snake g) ->
               Game.food g2 = Game.food g ->
               Game.app_state g2 = Playing ->
               Game.app_state (settle f1 landed g2) = Playing /\
               Snake.segments (Game.snake (settle f1 landed g2))
               = landed :: trailing (Game.snake g) /\
               Snake.grow_snake (Game.snake (settle f1 landed g2)) = true /\
               Game.food (settle f1 landed g2)
               = Food.mk (mkPoint (dist_x f1) (dist_y f1))).
    { intros g2 Hs2 Hf2 Hst2. unfold settle. rewrite Hs2. cbn [tl].
      destruct (Snake.collision_loop landed (trailing (Game.snake g))) eqn:C;
        [apply collision_loop_In in C; contradiction|].
      rewrite Hf2, <- Hfood, same_cell_refl. cbn. auto. }
    unfold ticked. fold d. rewrite Hwrap, Htrail.
    assert (Hl : landed = landing (Game.wrapping_enabled g) (translate d h))
      by reflexivity.
    clearbody landed.
    destruct (Game.wrapping_enabled g); cbn [landing] in Hl.
    - change (landing true (translate d h)) with (fst (Game.wrap_head (translate d h))).
      rewrite <- Hl. apply Hsettle; cbn; auto.
    - rewrite <- Hl, Hin. apply Hsettle; cbn; auto. }
  destruct Hshape as (Est & Esegs & Egrow & Efood).
  exists (ticked f1 g0 h). split; [exact Hup|].
  split; [exact Est|]. split; [exact Esegs|]. split; [exact Egrow|].
  split; [exact Efood|].
  intros Hrun2.
  destruct (playing_frame_length f2 _ landed (trailing (Game.snake g))
              Est Esegs (in_grid_steppable _ Hin)) as (g2 & Hup2 & Hlen).
  rewrite Hrun2, Egrow in Hlen. cbn [andb] in Hlen.
  unfold runs_tick in Hrun2. apply andb_true_iff in Hrun2.
  destruct Hrun2 as [Hp2 Hd2]. apply negb_true_iff in Hp2.
  pose proof (update_playing_closed tpm f2 _ landed (trailing (Game.snake g))
                Est Esegs (in_grid_steppable _ Hin)) as Hup2'.
  rewrite Hp2, Hd2 in Hup2'.
  destruct (sample_movement_frame f2 (ticked f1 g0 h)) as (s2 & Hg2 & Hsegs2 & Hgrow2).
  destruct (ticked_frame f2 (Game.sample_movement f2 (ticked f1 g0 h)) landed)
    as (Tsegs & _ & _).
  eexists _, _. split; [exact Hup2'|]. split.
  - rewrite Tsegs. f_equal. rewrite Hg2. cbn. unfold trailing.
    rewrite Hgrow2, Egrow, Hsegs2. exact Esegs.
  - rewrite Hup2 in Hup2'. injection Hup2' as <-. exact Hlen.
Qed.

(** A frame leaves the food where it is or puts it on the cell it drew. *)
Lemma food_update (f : Frame) (g g' : Game.t) :
  Game.update tpm f g = Some g' ->
  Game.food g' = Game.food g
  \/ Game.food g' = Food.mk (mkPoint (dist_x f) (dist_y f)).
Proof.
  unfold Game.update. destruct (Game.app_state g) eqn:E;
    try (intros H; injection H as <-).
  - unfold Game.update_start_menu. case_ifs; left; reflexivity.
  - unfold Game.update_settings. case_ifs; left; reflexivity.
  - unfold Game.update_keybinds. destruct (find _ _); case_ifs; left; reflexivity.
  - unfold Game.update_countdown. case_ifs; [right | left]; reflexivity.
  - unfold Game.update_playing.
    destruct (Game.is_action_pressed f _); [intros H; injection H as <-; left; reflexivity|].
    destruct (sample_movement_frame f g) as (s & -> & _).
    destruct (Game.tick_due tpm f _); [|intros H; injection H as <-; left; reflexivity].
    unfold Game.simulation_tick.
    destruct (Snake.update _) as [s1|]; [|discriminate]. cbn [bind].
    destruct (Snake.get_head s1) as [hd|]; [|discriminate]. cbn [bind].
    assert (Hend : forall (p : Point) (g2 : Game.t),
               Game.food g2 = Game.food g ->
               Game.after_boundary f p g2 = Some g' ->
               Game.food g' = Game.food g
               \/ Game.food g' = Food.mk (mkPoint (dist_x f) (dist_y f))).
    { intros p g2 Hf. unfold Game.after_boundary.
      destruct (Snake.has_self_collision _) as [[|]|]; cbn [bind]; try discriminate.
      - intros H; injection H as <-. left. exact Hf.
      - destruct (same_cell _ _); intros H; injection H as <-;
          [right; reflexivity | left; exact Hf]. }
    destruct (Game.wrapping_enabled _).
    + destruct (Game.wrap_head hd) as [hd' w].
      destruct w; [destruct (Snake.set_head hd' s1) as [s2|]; [|discriminate]|];
        cbn [bind]; apply Hend; reflexivity.
    + destruct (_ || _); [|apply Hend; reflexivity].
      intros H; injection H as <-. left. reflexivity.
  - unfold Game.update_pause. case_ifs; left; reflexivity.
  - unfold Game.update_confirm_restart. case_ifs; try (left; reflexivity).
    right. reflexivity.
  - unfold Game.update_confirm_main_menu. case_ifs; left; reflexivity.
  - unfold Game.update_game_over. case_ifs; left; reflexivity.
Qed.

Lemma draws_in_range_cell (f : Frame) :
  draws_in_range f -> in_grid (mkPoint (dist_x f) (dist_y f)) = true.
Proof.
  intros [Hx Hy]. apply in_grid_bounds. cbn [x y].
  unfold GRID_WIDTH, GRID_HEIGHT in *. lia.
Qed.

(** X11.  As long as the two distributions of [Food::respawn] deliver
    values inside the ranges they are built with, the food is on the board
    in every state of a run. *)
Theorem food_stays_in_grid (f0 : Frame) (frames : list Frame) :
  draws_in_range f0 ->
  Forall draws_in_range frames ->
  exists g : Game.t,
    Game.run tpm frames (Game.make f0) = Some g /\
    in_grid (Food.position (Game.food g)) = true.
Proof.
  intros H0 Hall.
  assert (Hgen : forall g : Game.t,
             well_formed g ->
             in_grid (Food.position (Game.food g)) = true ->
             exists g' : Game.t,
               Game.run tpm frames g = Some g' /\
               in_grid (Food.position (Game.food g')) = true).
  { induction Hall as [|f frames Hf Hall IH]; intros g W Hfood; cbn [Game.run].
    - exists g. split; [reflexivity | exact Hfood].
    - destruct (well_formed_update f g W) as (g1 & Hup & W1). rewrite Hup. cbn [bind].
      apply IH; [exact W1|].
      destruct (food_update f g g1 Hup) as [-> | ->];
        [exact Hfood | apply draws_in_range_cell; exact Hf]. }
  apply Hgen; [apply well_formed_make | apply draws_in_range_cell; exact H0].
Qed.

End MoreGameProperties.

Section ScreenTexts.

Import String.
Local Open Scope string_scope.

Variable tpm : Z.

Lemma to_int_not_nil (n : Z) :
  Z.to_int n <> Decimal.Pos Decimal.Nil /\ Z.to_int n <> Decimal.Neg Decimal.Nil.
Proof.
  destruct n as [|p|p]; cbn; split; try discriminate; intros H; injection H as H;
    exact (DecimalPos.Unsigned.to_uint_nonnil p H).
Qed.

(** [std::to_string] prints different integers differently. *)
Lemma to_string_injective (a b : Z) : Draw.to_string a = Draw.to_string b -> a = b.
Proof.
  unfold Draw.to_string. intros H.
  apply (f_equal DecimalString.NilZero.int_of_string) in H.
  destruct (to_int_not_nil a) as [Ha1 Ha2]. destruct (to_int_not_nil b) as [Hb1 Hb2].
  rewrite !DecimalString.NilZero.isi in H by assumption.
  injection H as H. apply DecimalZ.to_int_inj. exact H.
Qed.

(** X9.  [key_code_to_string] names different key codes differently: the
    nine special names are pairwise different and none of them starts like
    the text ["Key "] followed by a number. *)
Theorem key_code_to_string_injective (a b : Z) :
  Draw.key_code_to_string a = Draw.key_code_to_string b -> a = b.
Proof.
  unfold Draw.key_code_to_string.
  repeat match goal with
         | |- context [(?u =? ?v)%Z] => destruct (Z.eqb_spec u v)
         end;
    intros H; try congruence; try discriminate H.
  cbn in H. injection H as H. apply to_string_injective. exact H.
Qed.

(** X14.  In every GameOver state of a run the recorded best length is at
    least the length of the snake that the game-over screen shows. *)
Theorem game_over_best_at_least_length (f0 : Frame) (frames : list Frame) :
  exists g : Game.t,
    Game.run tpm frames (Game.make f0) = Some g /\
    (Game.app_state g = GameOver ->
     exists shown best : Z,
       Draw.draw_game_over g
       = ("Length: " ++ Draw.to_string shown,
          "BEST LENGTH: " ++ Draw.to_string best) /\
       shown <= best).
Proof.
  destruct (well_formed_run tpm frames _ (well_formed_make f0)) as (g & Hrun & W).
  exists g. split; [exact Hrun|]. intros Hst.
  exists (Snake.get_length (Game.snake g)), (Game.best_length g).
  split; [reflexivity | apply (wf_game_over g W Hst)].
Qed.

Lemma to_int_range (z : Z) : INT_MIN <= to_int z <= INT_MAX.
Proof.
  unfold to_int, INT_MIN, INT_MAX.
  pose proof (Z.mod_pos_bound (z + 2147483648) 4294967296). lia.
Qed.

(** X12.  The number on the countdown screen, for a clock that has not run
    backwards past the start: 4 while no full millisecond has passed, 3 up
    to 1000 ms, 2 up to 2000 ms and 1 from then on. *)
Theorem countdown_shows_seconds (clock_now : Z) (g : Game.t) :
  Game.countdown_duration_ms g = 3000 ->
  let elapsed_ms := Game.to_ms tpm (clock_now - Game.countdown_start_time g) in
  0 <= elapsed_ms ->
  Draw.draw_countdown tpm clock_now g
  = Some ("Starting in "
          ++ Draw.to_string
               (if (elapsed_ms =? 0)%Z then 4
                else if (elapsed_ms <=? 1000)%Z then 3
                else if (elapsed_ms <=? 2000)%Z then 2
                else 1)
          ++ "...").
Proof.
  intros Hdur elapsed_ms Hpos. unfold Draw.draw_countdown. fold elapsed_ms.
  rewrite Hdur.
  pose proof (to_int_range (Z.quot (clock_now - Game.countdown_start_time g) tpm)) as Hr.
  change (to_int _) with elapsed_ms in Hr.
  rewrite checked_in_range by (unfold INT_MIN, INT_MAX in *; lia). cbn [bind].
  assert (Hq : Z.max 0 (Z.quot (3000 - elapsed_ms) 1000) + 1
               = if (elapsed_ms =? 0)%Z then 4
                 else if (elapsed_ms <=? 1000)%Z then 3
                 else if (elapsed_ms <=? 2000)%Z then 2
                 else 1).
  { destruct (Z.eqb_spec elapsed_ms 0) as [->|Hne]; [reflexivity|].
    destruct (Z.le_gt_cases elapsed_ms 3000) as [Hle|Hgt].
    - rewrite Z.quot_div_nonneg by lia.
      destruct (Z.leb_spec elapsed_ms 1000).
      + rewrite <- (Z.div_unique (3000 - elapsed_ms) 1000 2 (1000 - elapsed_ms)) by lia.
        reflexivity.
      + destruct (Z.leb_spec elapsed_ms 2000).
        * rewrite <- (Z.div_unique (3000 - elapsed_ms) 1000 1 (2000 - elapsed_ms)) by lia.
          reflexivity.
        * rewrite <- (Z.div_unique (3000 - elapsed_ms) 1000 0 (3000 - elapsed_ms)) by lia.
          reflexivity.
    - destruct (Z.leb_spec elapsed_ms 1000); [lia|].
      destruct (Z.leb_spec elapsed_ms 2000); [lia|].
      replace (3000 - elapsed_ms) with (- (elapsed_ms - 3000)) by lia.
      rewrite Z.quot_opp_l by lia.
      pose proof (Z.quot_pos (elapsed_ms - 3000) 1000). lia. }
  rewrite Hq.
  rewrite checked_in_range; [reflexivity|].
  unfold INT_MIN, INT_MAX.
  destruct (elapsed_ms =? 0)%Z; [lia|].
  destruct (elapsed_ms <=? 1000)%Z; [lia|].
  destruct (elapsed_ms <=? 2000)%Z; lia.
Qed.

End ScreenTexts.

Lemma key_code_to_string_injective_witness :
  Draw.key_code_to_string KEY_W = Draw.key_code_to_string 87 /\ KEY_W = 87.
Proof.
  split; [reflexivity|].
  apply (key_code_to_string_injective KEY_W 87). reflexivity.
Defined.

(** * The further properties on concrete runs *)

Lemma counting_down_reached :
  Game.run ns_per_ms [click_play] (Game.make boot) = Some counting_down.
Proof. vm_compute. reflexivity. Qed.

Lemma hungry_session_reached :
  Game.run ns_per_ms [click_play; with_draw 21 15 countdown_over] (Game.make boot)
  = Some hungry_session.
Proof. vm_compute. reflexivity. Qed.

Lemma session_kept_or_fresh_witness :
  Game.app_state counting_down <> Playing /\
  Game.update ns_per_ms countdown_over counting_down = Some fresh_session /\
  ((Game.snake fresh_session = Game.snake counting_down
    /\ Game.food fresh_session = Game.food counting_down
    /\ Game.last_move_time fresh_session = Game.last_move_time counting_down
    /\ Game.best_length fresh_session = Game.best_length counting_down)
   \/ (Game.app_state fresh_session = Playing
       /\ ((Game.app_state counting_down = Countdown
            /\ Game.last_move_time fresh_session = now_again countdown_over)
           \/ (Game.app_state counting_down = ConfirmRestart
               /\ Game.last_move_time fresh_session = now countdown_over))
       /\ Game.snake fresh_session
          = Snake.make (Game.initial_snake_length counting_down)
       /\ Game.food fresh_session
          = Food.mk (mkPoint (dist_x countdown_over) (dist_y countdown_over))
       /\ Game.best_length fresh_session = Game.best_length counting_down)).
Proof.
  assert (Hst : Game.app_state counting_down <> Playing) by discriminate.
  assert (Hup : Game.update ns_per_ms countdown_over counting_down = Some fresh_session)
    by (vm_compute; reflexivity).
  split; [exact Hst|]. split; [exact Hup|].
  apply (session_kept_or_fresh ns_per_ms countdown_over counting_down fresh_session
           Hst Hup).
Defined.

Lemma countdown_ends_at_duration_witness :
  Game.app_state counting_down = Countdown /\
  Game.countdown_duration_ms counting_down = 3000 /\
  0 < ns_per_ms /\
  0 <= now countdown_over - Game.countdown_start_time counting_down
  < 2147483648 * ns_per_ms /\
  exists g' : Game.t,
    Game.update ns_per_ms countdown_over counting_down = Some g' /\
    (Game.app_state g' = Playing <->
     3000 * ns_per_ms
     <= now countdown_over - Game.countdown_start_time counting_down) /\
    (Game.app_state g' <> Playing -> g' = counting_down).
Proof.
  assert (Hpos : 0 < ns_per_ms) by reflexivity.
  assert (Hrange : 0 <= now countdown_over - Game.countdown_start_time counting_down
                   < 2147483648 * ns_per_ms)
    by (vm_compute; split; [discriminate | reflexivity]).
  split; [reflexivity|]. split; [reflexivity|]. split; [exact Hpos|].
  split; [exact Hrange|].
  apply (countdown_ends_at_duration ns_per_ms countdown_over counting_down);
    [reflexivity | reflexivity | exact Hpos | exact Hrange].
Defined.

(** One millisecond earlier the countdown goes on; after [2^31] ms the
    elapsed time no longer fits an [int] and the countdown goes on as well. *)
Example countdown_edges :
  Game.update ns_per_ms (at_ms 3999) counting_down = Some counting_down /\
  Game.update ns_per_ms (at_ms (1000 + 2147483648)) counting_down = Some counting_down.
Proof. vm_compute. split; reflexivity. Qed.

Section ScreenTextsOnRuns.

Import String.
Local Open Scope string_scope.

Lemma countdown_shows_seconds_witness :
  Game.countdown_duration_ms counting_down = 3000 /\
  0 <= Game.to_ms ns_per_ms (ms 1000 - Game.countdown_start_time counting_down) /\
  Draw.draw_countdown ns_per_ms (ms 1000) counting_down
  = Some ("Starting in "
          ++ Draw.to_string
               (if (Game.to_ms ns_per_ms (ms 1000 - Game.countdown_start_time counting_down)
                    =? 0)%Z then 4
                else if (Game.to_ms ns_per_ms
                           (ms 1000 - Game.countdown_start_time counting_down)
                         <=? 1000)%Z then 3
                else if (Game.to_ms ns_per_ms
                           (ms 1000 - Game.countdown_start_time counting_down)
                         <=? 2000)%Z then 2
                else 1)
          ++ "...").
Proof.
  assert (Hpos : 0 <= Game.to_ms ns_per_ms (ms 1000 - Game.countdown_start_time counting_down))
    by (vm_compute; discriminate).
  split; [reflexivity|]. split; [exact Hpos|].
  apply (countdown_shows_seconds ns_per_ms (ms 1000) counting_down); [reflexivity | exact Hpos].
Defined.

(** The first frame of the countdown shows 4; the last millisecond shows 1. *)
Example countdown_first_and_last :
  Draw.draw_countdown ns_per_ms (ms 1000) counting_down = Some "Starting in 4..." /\
  Draw.draw_countdown ns_per_ms (ms 1001) counting_down = Some "Starting in 3..." /\
  Draw.draw_countdown ns_per_ms (ms 3999) counting_down = Some "Starting in 1...".
Proof. vm_compute. repeat split. Qed.

Example key_names :
  Draw.key_code_to_string KEY_ESCAPE = "ESC" /\
  Draw.key_code_to_string 32 = "Key 32" /\
  Draw.key_code_to_string (-1) = "Key -1" /\
  Draw.entry_label 2 KeyBindings.make = Some "UP".
Proof. vm_compute. repeat split. Qed.

Lemma game_over_best_at_least_length_witness :
  exists g : Game.t,
    Game.run ns_per_ms first_session (Game.make boot) = Some g /\
    Game.app_state g = GameOver /\
    exists shown best : Z,
      Draw.draw_game_over g
      = ("Length: " ++ Draw.to_string shown, "BEST LENGTH: " ++ Draw.to_string best) /\
      shown <= best.
Proof.
  destruct (game_over_best_at_least_length ns_per_ms boot first_session)
    as (g & Hrun & H).
  exists g. split; [exact Hrun|].
  assert (Hst : Game.app_state g = GameOver).
  { pose proof Hrun as Hc. vm_compute in Hc. injection Hc as <-. reflexivity. }
  split; [exact Hst | exact (H Hst)].
Defined.

End ScreenTextsOnRuns.

(** The cell in front of [hungry_session]'s head, and what stays behind. *)
Lemma eating_grows_next_tick_witness :
  Game.app_state hungry_session = Playing /\
  steppable (mkPoint 20 15) /\
  runs_tick ns_per_ms (at_ms 4100) hungry_session = true /\
  in_grid (mkPoint 21 15) = true /\
  ~ In (mkPoint 21 15) [mkPoint 20 15; mkPoint 19 15] /\
  exists g1 : Game.t,
    Game.update ns_per_ms (at_ms 4100) hungry_session = Some g1 /\
    Game.app_state g1 = Playing /\
    Snake.segments (Game.snake g1) = [mkPoint 21 15; mkPoint 20 15; mkPoint 19 15] /\
    Snake.grow_snake (Game.snake g1) = true /\
    Game.food g1 = Food.mk (mkPoint 7 7) /\
    (runs_tick ns_per_ms (at_ms 4200) g1 = true ->
     exists (g2 : Game.t) (new_head : Point),
       Game.update ns_per_ms (at_ms 4200) g1 = Some g2 /\
       Snake.segments (Game.snake g2)
       = [new_head; mkPoint 21 15; mkPoint 20 15; mkPoint 19 15] /\
       length (Snake.segments (Game.snake g2))
       = S (length (Snake.segments (Game.snake g1)))).
Proof.
  assert (Hstep : steppable (mkPoint 20 15)) by (vm_compute; repeat split; reflexivity).
  assert (Hfree : ~ In (mkPoint 21 15) [mkPoint 20 15; mkPoint 19 15])
    by (intros [H|[H|[]]]; discriminate H).
  split; [reflexivity|]. split; [exact Hstep|]. split; [reflexivity|].
  split; [reflexivity|]. split; [exact Hfree|].
  apply (eating_grows_next_tick ns_per_ms (at_ms 4100) (at_ms 4200) hungry_session
           (mkPoint 20 15) [mkPoint 19 15; mkPoint 18 15]);
    [reflexivity | reflexivity | exact Hstep | reflexivity | reflexivity
    | exact Hfree | reflexivity].
Defined.

(** The two ticks evaluated: the tail cell (18, 15) leaves on the first and
    the tail cell (19, 15) stays on the second. *)
Example eating_two_ticks :
  exists g1 g2 : Game.t,
    Game.update ns_per_ms (at_ms 4100) hungry_session = Some g1 /\
    Game.update ns_per_ms (at_ms 4200) g1 = Some g2 /\
    Snake.segments (Game.snake g1) = [mkPoint 21 15; mkPoint 20 15; mkPoint 19 15] /\
    Snake.segments (Game.snake g2)
    = [mkPoint 22 15; mkPoint 21 15; mkPoint 20 15; mkPoint 19 15] /\
    Snake.grow_snake (Game.snake g2) = false.
Proof.
  eexists _, _. split; [vm_compute; reflexivity|].
  split; [vm_compute; reflexivity|]. vm_compute. repeat split.
Qed.

Lemma food_stays_in_grid_witness :
  draws_in_range boot /\
  Forall draws_in_range [click_play; countdown_over] /\
  exists g : Game.t,
    Game.run ns_per_ms [click_play; countdown_over] (Game.make boot) = Some g /\
    in_grid (Food.position (Game.food g)) = true.
Proof.
  assert (Hdraw : forall f, dist_x f = 7 -> dist_y f = 7 -> draws_in_range f).
  { intros f Hx Hy. unfold draws_in_range. rewrite Hx, Hy. vm_compute.
    repeat split; discriminate. }
  assert (H0 : draws_in_range boot) by (apply Hdraw; reflexivity).
  assert (Hall : Forall draws_in_range [click_play; countdown_over])
    by (repeat constructor; apply Hdraw; reflexivity).
  split; [exact H0|]. split; [exact Hall|].
  apply (food_stays_in_grid ns_per_ms boot [click_play; countdown_over] H0 Hall).
Defined.

Lemma length_changes_by_growth_only_witness :
  Game.app_state fresh_session = Playing /\
  steppable (mkPoint 20 15) /\
  exists g' : Game.t,
    Game.update ns_per_ms late_frame fresh_session = Some g' /\
    (length (Snake.segments (Game.snake fresh_session))
     <= length (Snake.segments (Game.snake g')))%nat /\
    (length (Snake.segments (Game.snake g'))
     <= S (length (Snake.segments (Game.snake fresh_session))))%nat /\
    (length (Snake.segments (Game.snake g'))
     = S (length (Snake.segments (Game.snake fresh_session)))
     <-> runs_tick ns_per_ms late_frame fresh_session = true
         /\ Snake.grow_snake (Game.snake fresh_session) = true).
Proof.
  assert (Hstep : steppable (mkPoint 20 15)) by (vm_compute; repeat split; reflexivity).
  split; [reflexivity|]. split; [exact Hstep|].
  apply (length_changes_by_growth_only ns_per_ms late_frame fresh_session
           (mkPoint 20 15) [mkPoint 19 15; mkPoint 18 15]);
    [reflexivity | reflexivity | exact Hstep].
Defined.

Lemma pause_resume_round_trip_witness :
  Game.app_state fresh_session = Playing /\
  Game.is_action_pressed pause_after_interval
    (KeyBindings.pause (Game.key_bindings fresh_session)) = true /\
  Game.is_action_pressed press_resume
    (KeyBindings.resume (Game.key_bindings fresh_session)) = true /\
  IsMouseButtonPressed press_resume = false /\
  Game.run ns_per_ms [pause_after_interval; press_resume] fresh_session
  = Some fresh_session.
Proof.
  split; [reflexivity|]. split; [reflexivity|]. split; [reflexivity|].
  split; [reflexivity|].
  apply (pause_resume_round_trip ns_per_ms pause_after_interval press_resume
           fresh_session); [reflexivity | reflexivity | reflexivity | left; reflexivity].
Defined.

(** X16.  Rebinding and the keybind screen agree: after [rebind] for one of
    the rows 0 to 5 that row shows the new key and every other row shows the
    key it showed before; for any other action number nothing is rebound. *)
Theorem rebind_then_entry_key (action new_key : Z) (kb : KeyBindings.t) :
  (0 <= action <= 5 ->
   Draw.entry_key action (Game.rebind action new_key kb) = Some new_key /\
   forall row : Z,
     row <> action ->
     Draw.entry_key row (Game.rebind action new_key kb) = Draw.entry_key row kb) /\
  (~ 0 <= action <= 5 -> Game.rebind action new_key kb = kb).
Proof.
  destruct kb as [p r u d l rt].
  assert (Hcase : action = 0 \/ action = 1 \/ action = 2 \/ action = 3
                  \/ action = 4 \/ action = 5 \/ ~ 0 <= action <= 5) by lia.
  split.
  - intros Hr. split.
    + destruct Hcase as [->|[->|[->|[->|[->|[->|N]]]]]]; try lia; reflexivity.
    + intros row Hrow. unfold Draw.entry_key.
      destruct Hcase as [->|[->|[->|[->|[->|[->|N]]]]]]; try lia;
        cbn [Game.rebind Z.eqb KeyBindings.pause KeyBindings.resume KeyBindings.up
             KeyBindings.down KeyBindings.left KeyBindings.right];
        repeat match goal with
               | |- context [row =? ?c] => destruct (Z.eqb_spec row c); try lia
               end; reflexivity.
  - intros N. unfold Game.rebind.
    repeat match goal with
           | |- context [action =? ?c] => destruct (Z.eqb_spec action c); try lia
           end. reflexivity.
Qed.

Lemma rebind_then_entry_key_witness :
  0 <= 2 <= 5 /\
  Draw.entry_key 2 (Game.rebind 2 KEY_D KeyBindings.make) = Some KEY_D /\
  Draw.entry_key 5 (Game.rebind 2 KEY_D KeyBindings.make)
  = Draw.entry_key 5 KeyBindings.make.
Proof.
  assert (H : 0 <= 2 <= 5) by lia.
  split; [exact H|].
  destruct (proj1 (rebind_then_entry_key 2 KEY_D KeyBindings.make) H) as [E R].
  split; [exact E | apply R; discriminate].
Defined.

Lemma make_layout_witness :
  1 <= 3 <= 21 /\
  (1 < Z.to_nat 3)%nat /\
  nth_error (Snake.segments (Snake.make 3)) 1 = Some (mkPoint (20 - Z.of_nat 1) 15) /\
  session_shape (Snake.make 3).
Proof.
  assert (H : 1 <= 3 <= 21) by lia.
  assert (K : (1 < Z.to_nat 3)%nat) by (cbn; lia).
  destruct (make_layout 3) as (_ & Hnth & _ & _ & _ & Hshape & _).
  split; [exact H|]. split; [exact K|]. split; [apply Hnth; exact K | apply Hshape; exact H].
Defined.

Lemma snake_on_board_without_overlap_witness :
  in_session fresh_session = true /\
  Snake.segments (Game.snake fresh_session) <> [] /\
  all_in_grid (Snake.segments (Game.snake fresh_session)) /\
  NoDup (Snake.segments (Game.snake fresh_session)) /\
  (length (Snake.segments (Game.snake fresh_session)) <= 1200)%nat /\
  Snake.get_length (Game.snake fresh_session)
  = Z.of_nat (length (Snake.segments (Game.snake fresh_session))).
Proof.
  destruct (snake_on_board_without_overlap ns_per_ms boot [click_play; countdown_over])
    as (g & Hrun & H).
  rewrite fresh_session_reached in Hrun. injection Hrun as <-.
  split; [reflexivity|]. apply H. reflexivity.
Defined.

Lemma snake_cells_adjacent_witness :
  in_session fresh_session = true /\
  nth_error (Snake.segments (Game.snake fresh_session)) 0 = Some (mkPoint 20 15) /\
  nth_error (Snake.segments (Game.snake fresh_session)) 1 = Some (mkPoint 19 15) /\
  ((15 = 15 /\ (20 = (19 + 1) mod GRID_WIDTH \/ 20 = (19 - 1) mod GRID_WIDTH))
   \/ (20 = 19 /\ (15 = (15 + 1) mod GRID_HEIGHT \/ 15 = (15 - 1) mod GRID_HEIGHT))).
Proof.
  destruct (snake_cells_adjacent ns_per_ms boot [click_play; countdown_over])
    as (g & Hrun & H).
  rewrite fresh_session_reached in Hrun. injection Hrun as <-.
  split; [reflexivity|]. split; [reflexivity|]. split; [reflexivity|].
  apply (H eq_refl 0%nat (mkPoint 20 15) (mkPoint 19 15)); reflexivity.
Defined.

Lemma transitions_follow_table_witness :
  exists g g' : Game.t,
    Game.run ns_per_ms [click_settings] (Game.make boot) = Some g /\
    Game.update ns_per_ms click_back g = Some g' /\
    Game.app_state g = Settings /\
    Game.app_state g' = StartMenu /\
    allowed (Game.app_state g) (Game.app_state g') = true /\
    (Game.app_state g' = Settings \/ Game.app_state g' = Keybinds
     \/ Game.app_state g' = Game.previous_state g).
Proof.
  destruct (transitions_follow_table ns_per_ms boot [click_settings] click_back)
    as (g & g' & Hrun & Hup & Ha & _ & Hs).
  exists g, g'. split; [exact Hrun|]. split; [exact Hup|].
  assert (Hg : Game.app_state g = Settings).
  { pose proof Hrun as Hc. vm_compute in Hc. injection Hc as <-. reflexivity. }
  assert (Hg' : Game.app_state g' = StartMenu).
  { pose proof Hrun as Hc. vm_compute in Hc. injection Hc as Hc. subst g.
    pose proof Hup as Hd. vm_compute in Hd. injection Hd as <-. reflexivity. }
  split; [exact Hg|]. split; [exact Hg'|]. split; [exact Ha | exact (Hs Hg)].
Defined.
